(** * AircomPredRaster: block assembly, coverage mask and post-processing

    A shallow embedding of [gdal/frmts/aircom/AircomPredRaster/RasterBand.cpp]
    (with [RasterBand.h]): the typed pixel codec, the block assembler
    ([readBlock], [readTile], [fillNoDataBlock], [fillPartialBlock]), the
    coverage mask ([computeRowSegmentsInsidePredictionRadius]) and the
    post-processor ([postProcessBlock], [postProcessBlockRow]).

    Conventions of the embedding.
    - A C++ [double] is a [spec_float] of binary64 and a [float] one of
      binary32; the arithmetic is the IEEE-754 specification of
      [Stdlib.Floats.SpecFloat] (round to nearest even).
    - A block buffer ([void*]) is a list of pixels in row-major order; the
      byte offsets of the source are pixel offsets here.
    - [int] quantities of the block geometry are [Z]: GDAL keeps raster and
      block sizes inside an [int], and signed overflow has no meaning in the
      source language.  The bounds of a row segment come from the geometry
      of the prediction and can leave the range of an [int]: the sum and
      the difference that produce them are those of the targets, modulo
      2^32 ([int_add], [int_sub], [int_mul]).
    - A conversion from a floating value to an integer type truncates toward
      zero; when the truncated value does not fit the destination the source
      language leaves the result open, and the value a target delivers there
      is the [Target] parameter of the development. *)

From Stdlib Require Import ZArith QArith List Bool Lia String.
From Stdlib Require Import Floats.SpecFloat.
From stdpp Require Import base list.

Local Open Scope Z_scope.

(** ** Floating-point values *)

Module Fp.

Abbreviation double := spec_float.

Definition prec : Z := 53.
Definition emax : Z := 1024.

Definition add : double -> double -> double := SFadd prec emax.
Definition sub : double -> double -> double := SFsub prec emax.
Definition mul : double -> double -> double := SFmul prec emax.
Definition div : double -> double -> double := SFdiv prec emax.
Definition sqrt : double -> double := SFsqrt prec emax.
Definition abs : double -> double := SFabs.

Definition eqb : double -> double -> bool := SFeqb.
Definition ltb : double -> double -> bool := SFltb.
Definition leb : double -> double -> bool := SFleb.
Definition gtb (x y : double) : bool := SFltb y x.

(** Conversion of an integer to [double] (exact below 2^53, rounded above). *)
Definition of_int (z : Z) : double := binary_normalize prec emax z 0 false.

(** The literals of the source. *)
Definition nan : double := S754_nan.
Definition half : double := binary_normalize prec emax 1 (-1) false.
Definition hundred : double := of_int 100.

(** [static_cast<float>(d)]: rounding to binary32. *)
Definition to_float (d : double) : spec_float :=
  match d with
  | S754_finite s m e => binary_round 24 128 s m e
  | _ => d
  end.

(** The signed mantissa of a finite value. *)
Definition signed (s : bool) (m : positive) : Z := cond_Zopp s (Zpos m).

(** Integer part toward zero, when there is one. *)
Definition trunc (d : double) : option Z :=
  match d with
  | S754_zero _ => Some 0
  | S754_finite s m e =>
      Some (if 0 <=? e then signed s m * 2 ^ e
            else cond_Zopp s (Zpos m / 2 ^ (- e)))
  | _ => None
  end.

(** Largest integer below and smallest integer above a finite value. *)
Definition floorZ (d : double) : option Z :=
  match d with
  | S754_zero _ => Some 0
  | S754_finite s m e =>
      Some (if 0 <=? e then signed s m * 2 ^ e else signed s m / 2 ^ (- e))
  | _ => None
  end.

Definition ceilZ (d : double) : option Z :=
  match d with
  | S754_zero _ => Some 0
  | S754_finite s m e =>
      Some (if 0 <=? e then signed s m * 2 ^ e
            else - ((- signed s m) / 2 ^ (- e)))
  | _ => None
  end.

(** [std::floor] and [std::ceil]: a value with a non-negative exponent is
    an integer already; otherwise the integer is below 2^53 in magnitude
    and its conversion is exact.  A zero result keeps the sign of the
    argument. *)
Definition floor (d : double) : double :=
  match d with
  | S754_finite s m e =>
      if 0 <=? e then d
      else binary_normalize prec emax (signed s m / 2 ^ (- e)) 0 s
  | _ => d
  end.

Definition ceil (d : double) : double :=
  match d with
  | S754_finite s m e =>
      if 0 <=? e then d
      else binary_normalize prec emax (- ((- signed s m) / 2 ^ (- e))) 0 s
  | _ => d
  end.

(** The rational a finite value stands for. *)
Definition toQ (d : double) : option Q :=
  match d with
  | S754_zero _ => Some (0 # 1)%Q
  | S754_finite s m e =>
      Some (if 0 <=? e then inject_Z (signed s m * 2 ^ e)
            else Qmake (signed s m) (Z.to_pos (2 ^ (- e))))
  | _ => None
  end.

End Fp.

(** ** Integer destinations of a conversion *)

Inductive IntKind := U8 | I16 | U16 | I32 | U32.

Definition int_min (k : IntKind) : Z :=
  match k with
  | U8 | U16 | U32 => 0
  | I16 => - 2 ^ 15
  | I32 => - 2 ^ 31
  end.

Definition int_max (k : IntKind) : Z :=
  match k with
  | U8 => 2 ^ 8 - 1
  | I16 => 2 ^ 15 - 1
  | U16 => 2 ^ 16 - 1
  | I32 => 2 ^ 31 - 1
  | U32 => 2 ^ 32 - 1
  end.

Definition in_range (k : IntKind) (z : Z) : bool :=
  (int_min k <=? z) && (z <=? int_max k).

(** Reduction of an integer into the destination (two's complement). *)
Definition wrap (k : IntKind) (z : Z) : Z :=
  let span := int_max k - int_min k + 1 in
  (z - int_min k) mod span + int_min k.

(** What the target delivers for a conversion whose truncated value does not
    fit the destination (a NaN, an infinity, a value out of range). *)
Class Target := { unrepresentable : IntKind -> spec_float -> Z }.

(** [static_cast<K>(d)] for an integer type [K]. *)
Definition to_int `{Target} (k : IntKind) (d : spec_float) : Z :=
  match Fp.trunc d with
  | Some z => if in_range k z then z else wrap k (unrepresentable k d)
  | None => wrap k (unrepresentable k d)
  end.

(** The x86-64 targets the driver is built for convert with [cvttsd2si]: the
    32-bit form for destinations of at most 32 signed bits, the 64-bit form
    for [unsigned int]; the instruction answers the "integer indefinite"
    value (the most negative integer) when the operand does not fit, and
    the destination keeps the low bits. *)
Definition cvttsd2si (bits : Z) (d : spec_float) : Z :=
  match Fp.trunc d with
  | Some z =>
      if (- 2 ^ (bits - 1) <=? z) && (z <? 2 ^ (bits - 1)) then z
      else - 2 ^ (bits - 1)
  | None => - 2 ^ (bits - 1)
  end.

Definition x86_64 : Target :=
  {| unrepresentable k d :=
       match k with
       | U32 => cvttsd2si 64 d
       | _ => cvttsd2si 32 d
       end |}.

(** ** Arithmetic of [int] *)

(** The sum, the difference and the product of two [int] values as the
    targets of the driver compute them: in two's complement, modulo 2^32.
    (The source language gives a result outside the type no meaning.) *)
Definition int_add (x y : Z) : Z := wrap I32 (x + y).

Definition int_sub (x y : Z) : Z := wrap I32 (x - y).

Definition int_mul (x y : Z) : Z := wrap I32 (x * y).

(** ** Pixels and encodings *)

(** Modelled from the spec: the enumeration [GDALDataType] is declared in
    GDAL's gdal.h, which is not among the sources.  The seven pixel
    encodings of the spec are the enumerators the switches of RasterBand.cpp
    have a [case] for; the others are the enumerators GDAL has besides,
    which reach the [default] label of a switch or fall through it. *)
Inductive GDALDataType :=
  | GDT_Unknown | GDT_Byte | GDT_UInt16 | GDT_Int16 | GDT_UInt32 | GDT_Int32
  | GDT_Float32 | GDT_Float64
  | GDT_CInt16 | GDT_CInt32 | GDT_CFloat32 | GDT_CFloat64.

(** The element types the templates are instantiated at. *)
Inductive CType :=
  | uint8_t | int16_t | uint16_t | int32_t | uint32_t | float_t | double_t.

(** A stored pixel: an integer of the element type, or a floating value. *)
Inductive pixel :=
  | PxInt (z : Z)
  | PxFlt (f : spec_float).

(** The element type each [case] label of the source's switches selects; an
    encoding with no label has none. *)
Definition ctype_of (t : GDALDataType) : option CType :=
  match t with
  | GDT_Byte => Some uint8_t
  | GDT_Int16 => Some int16_t
  | GDT_UInt16 => Some uint16_t
  | GDT_Int32 => Some int32_t
  | GDT_UInt32 => Some uint32_t
  | GDT_Float32 => Some float_t
  | GDT_Float64 => Some double_t
  | _ => None
  end.

Definition int_kind (T : CType) : option IntKind :=
  match T with
  | uint8_t => Some U8
  | int16_t => Some I16
  | uint16_t => Some U16
  | int32_t => Some I32
  | uint32_t => Some U32
  | float_t | double_t => None
  end.

(** [static_cast<T>(d)] of a [double]. *)
Definition static_cast `{Target} (T : CType) (d : spec_float) : pixel :=
  match int_kind T with
  | Some k => PxInt (to_int k d)
  | None =>
      match T with
      | float_t => PxFlt (Fp.to_float d)
      | _ => PxFlt d
      end
  end.

(** [a == b] and [a < b] on two values of one element type. *)
Definition px_eqb (a b : pixel) : bool :=
  match a, b with
  | PxInt x, PxInt y => x =? y
  | PxFlt x, PxFlt y => SFeqb x y
  | _, _ => false
  end.

Definition px_ltb (a b : pixel) : bool :=
  match a, b with
  | PxInt x, PxInt y => x <? y
  | PxFlt x, PxFlt y => SFltb x y
  | _, _ => false
  end.

(** ** Buffers and loops *)

Abbreviation buffer := (list pixel).

(** [p[i] = v] and [p[i]] on a buffer.  GDAL hands [IReadBlock] an image of
    the size of a block and every index of the source lies inside it; an
    index outside the list stores nothing and loads nothing here. *)
Definition store (data : buffer) (i : Z) (v : pixel) : buffer :=
  if i <? 0 then data else <[Z.to_nat i := v]> data.

Definition load (data : buffer) (i : Z) : option pixel :=
  if i <? 0 then None else data !! Z.to_nat i.

(** [for (x = a; x < b; ++x) body(x)], threading a state. *)
Fixpoint for_loop {S : Type} (n : nat) (x : Z) (body : Z -> S -> S) (s : S) : S :=
  match n with
  | O => s
  | Datatypes.S n' => for_loop n' (x + 1) body (body x s)
  end.

Definition for_range {S : Type} (a b : Z) (body : Z -> S -> S) (s : S) : S :=
  for_loop (Z.to_nat (b - a)) a body s.

(** [boost::optional]'s conversion to [bool]. *)
Definition has_value {A : Type} (o : option A) : bool :=
  match o with
  | Some _ => true
  | None => false
  end.

(** ** Exceptions and outcomes *)

Inductive exn :=
  | logic_error (what : string)
  | runtime_error (what : string).

(** A call returns, throws, or leaves the defined behaviour of the language
    (an access outside a container). *)
Inductive outcome (A : Type) :=
  | Ok (a : A)
  | Throw (e : exn)
  | Undefined.

Arguments Ok {A} a.
Arguments Throw {A} e.
Arguments Undefined {A}.

Definition bind {A B : Type} (m : outcome A) (k : A -> outcome B) : outcome B :=
  match m with
  | Ok a => k a
  | Throw e => Throw e
  | Undefined => Undefined
  end.

Notation "x <- m ;; k" := (bind m (fun x => k))
  (at level 100, m at next level, right associativity).

(** The loop of [for_range] with a body that may not return. *)
Fixpoint for_loopM {S : Type} (n : nat) (x : Z) (body : Z -> S -> outcome S)
  (s : S) : outcome S :=
  match n with
  | O => Ok s
  | Datatypes.S n' => s' <- body x s ;; for_loopM n' (x + 1) body s'
  end.

Definition for_rangeM {S : Type} (a b : Z) (body : Z -> S -> outcome S) (s : S)
  : outcome S :=
  for_loopM (Z.to_nat (b - a)) a body s.

(** ** The data model of a band *)

(** [RasterBand::RowSegment]: the half-open column interval [start, end). *)
Record RowSegment := { seg_start : Z; seg_end : Z }.

(** The records below are declared in headers that are not among the
    sources (Dataset.h and the provider's API); their fields are the ones
    RasterBand.cpp reads. *)
Record SectionInfo := { dataType : GDALDataType; tileSizeInPixels : Z * Z }.

(** The prediction parameters the mask reads (integers, in centimetres). *)
Record PredData := {
  nResolution_cm : Z;
  nRadius_cm : Z;
  nX_cm : Z;
  nY_cm : Z
}.

Record BoundingBox := {
  min_corner : spec_float * spec_float;
  max_corner : spec_float * spec_float
}.

(** A tile of the provider ([IRasterTile]): its pixel count, its region
    (width, height) and, for an element type and a count, the pixels its
    typed getter writes. *)
Record Tile := {
  GetPixelCount : Z;
  GetTileRegion : Z * Z;
  GetData : CType -> Z -> list pixel
}.

(** [raw_GetTile]: [None] when the call fails (no tile for this block). *)
Definition TileIterator := Z -> Z -> option Tile.

Record ApiWrapper := {
  predData : PredData;
  boundingBox : BoundingBox;
  CreateTileIterator : Z -> TileIterator
}.

Record RasterBand := {
  apiWrapper : ApiWrapper;
  sectionNum : Z;
  noDataValue : option spec_float;
  eDataType : GDALDataType;
  nRasterXSize : Z;
  nRasterYSize : Z;
  nBlockXSize : Z;
  nBlockYSize : Z;
  nBlocksPerRow : Z;
  nBlocksPerColumn : Z;
  rowSegmentsInsidePredictionRadius : list RowSegment
}.

Inductive CPLErr := CE_None | CE_Failure.

(** ** The anonymous namespace of RasterBand.cpp *)

Definition getNoDataValue (sectionInfo : SectionInfo) : option spec_float :=
  match dataType sectionInfo with
  | GDT_Float32 => Some (Fp.of_int (-9999))
  | GDT_Int16 => Some (Fp.of_int (-9999))
  | GDT_Byte => Some (Fp.of_int 200)
  | _ => None
  end.

(** The two out-parameters are passed in and returned; they are left as
    they were when the section has no range. *)
Definition getValidValuesRange (sectionNum : Z) (minmax : spec_float * spec_float)
  : bool * (spec_float * spec_float) :=
  match sectionNum with
  | 0 => (true, (Fp.of_int 0, Fp.of_int 200))
  | 1 => (true, (Fp.of_int (-18000), Fp.of_int 18000))
  | _ => (false, minmax)
  end.

Definition fillWithNoDataValue (noDataValue : pixel) (data : buffer)
  (numPixels : Z) : buffer :=
  for_range 0 numPixels (fun i typedData => store typedData i noDataValue) data.

(** The three loops of [postProcessBlockRow], over the work done at a column
    by the two sentinel loops ([fill]) and by the clamping loop ([clamp]). *)
Definition row_loops {S : Type} (widthInPixels : Z) (seg : RowSegment)
  (hasNoData : bool) (fill clamp : Z -> S -> S) (s : S) : S :=
  let s1 := if hasNoData then for_range 0 (seg_start seg) fill s else s in
  let s2 := for_range (seg_start seg) (seg_end seg) clamp s1 in
  if hasNoData then for_range (seg_end seg) widthInPixels fill s2 else s2.

(** The body of the clamping loop at column [x] of the row at offset [base]. *)
Definition clamp_at (typedNoDataValue : option pixel)
  (typedMinValue typedMaxValue : pixel) (base x : Z) (data : buffer) : buffer :=
  match load data (base + x) with
  | None => data
  | Some value =>
      if match typedNoDataValue with
         | Some nd => px_eqb value nd
         | None => false
         end
      then data
      else if px_ltb value typedMinValue then store data (base + x) typedMinValue
      else if px_ltb typedMaxValue value then store data (base + x) typedMaxValue
      else data
  end.

Definition fill_at (typedNoDataValue : option pixel) (base x : Z)
  (data : buffer) : buffer :=
  match typedNoDataValue with
  | Some nd => store data (base + x) nd
  | None => data
  end.

(** [postProcessBlockRow<T>(data + base, ...)]. *)
Definition postProcessBlockRow `{Target} (T : CType) (data : buffer) (base : Z)
  (widthInPixels : Z) (blockRowSegmentInsidePredictionRadius : RowSegment)
  (noDataValue : option spec_float) (minValue maxValue : spec_float) : buffer :=
  let typedMinValue := static_cast T minValue in
  let typedMaxValue := static_cast T maxValue in
  let typedNoDataValue := option_map (static_cast T) noDataValue in
  row_loops widthInPixels blockRowSegmentInsidePredictionRadius
    (has_value noDataValue)
    (fill_at typedNoDataValue base)
    (clamp_at typedNoDataValue typedMinValue typedMaxValue base)
    data.

(** The columns the three loops visit, in order. *)
Definition columns_visited (widthInPixels : Z) (seg : RowSegment)
  (noDataValue : option spec_float) : list Z :=
  row_loops widthInPixels seg (has_value noDataValue)
    (fun x visited => visited ++ [x]) (fun x visited => visited ++ [x]) [].

(** ** RasterBand *)

(** Modelled from the spec: the macro [DIV_ROUND_UP] of GDAL's headers, which
    are not part of the sources at hand; the spec calls it ceiling division. *)
Definition DIV_ROUND_UP (a b : Z) : Z :=
  if Z.rem a b =? 0 then Z.quot a b else Z.quot a b + 1.

Definition new_RasterBand (sizeInPixels : Z * Z) (tmpApiWrapper : ApiWrapper)
  (sectionNum : Z) (sectionInfo : SectionInfo) : RasterBand :=
  {| apiWrapper := tmpApiWrapper;
     sectionNum := sectionNum;
     noDataValue := getNoDataValue sectionInfo;
     eDataType := dataType sectionInfo;
     nRasterXSize := fst sizeInPixels;
     nRasterYSize := snd sizeInPixels;
     nBlockXSize := fst (tileSizeInPixels sectionInfo);
     nBlockYSize := snd (tileSizeInPixels sectionInfo);
     nBlocksPerRow := DIV_ROUND_UP (fst sizeInPixels) (fst (tileSizeInPixels sectionInfo));
     nBlocksPerColumn := DIV_ROUND_UP (snd sizeInPixels) (snd (tileSizeInPixels sectionInfo));
     rowSegmentsInsidePredictionRadius := [] |}.

Definition set_noDataValue (b : RasterBand) (v : option spec_float) : RasterBand :=
  {| apiWrapper := apiWrapper b;
     sectionNum := sectionNum b;
     noDataValue := v;
     eDataType := eDataType b;
     nRasterXSize := nRasterXSize b;
     nRasterYSize := nRasterYSize b;
     nBlockXSize := nBlockXSize b;
     nBlockYSize := nBlockYSize b;
     nBlocksPerRow := nBlocksPerRow b;
     nBlocksPerColumn := nBlocksPerColumn b;
     rowSegmentsInsidePredictionRadius := rowSegmentsInsidePredictionRadius b |}.

Definition set_rowSegments (b : RasterBand) (v : list RowSegment) : RasterBand :=
  {| apiWrapper := apiWrapper b;
     sectionNum := sectionNum b;
     noDataValue := noDataValue b;
     eDataType := eDataType b;
     nRasterXSize := nRasterXSize b;
     nRasterYSize := nRasterYSize b;
     nBlockXSize := nBlockXSize b;
     nBlockYSize := nBlockYSize b;
     nBlocksPerRow := nBlocksPerRow b;
     nBlocksPerColumn := nBlocksPerColumn b;
     rowSegmentsInsidePredictionRadius := v |}.

Definition SetNoDataValue (b : RasterBand) (value : spec_float) : CPLErr * RasterBand :=
  (CE_None, set_noDataValue b (Some value)).

(** The value and the success flag written through [pbSuccess]. *)
Definition GetNoDataValue (b : RasterBand) : spec_float * bool :=
  (default Fp.nan (noDataValue b), has_value (noDataValue b)).

Definition getNumPixelsPerBlock (b : RasterBand) : Z :=
  nBlockXSize b * nBlockYSize b.

(** The typed getter of the tile writes its pixels at the start of [data]. *)
Definition write_pixels (data : buffer) (src : list pixel) : buffer :=
  for_range 0 (Z.of_nat (length src))
    (fun i d => match load src i with
                | Some v => store d i v
                | None => d
                end) data.

Definition readTile (b : RasterBand) (tile : Tile) (numPixels : Z)
  (data : buffer) : outcome buffer :=
  match ctype_of (eDataType b) with
  | Some T => Ok (write_pixels data (GetData tile T numPixels))
  | None =>
      Throw (logic_error "RasterBand::readTile(): unsupported GDAL data type!")
  end.

(** The switch of [fillNoDataBlock] has no [default] label: an encoding
    without a [case] falls through it and the function returns. *)
Definition fillNoDataBlock `{Target} (b : RasterBand) (blockData : buffer)
  : outcome buffer :=
  match noDataValue b with
  | None =>
      Throw (runtime_error "RasterBand::fillNoDataBlock(): unknown no-data value")
  | Some v =>
      let numPixels := getNumPixelsPerBlock b in
      match ctype_of (eDataType b) with
      | Some T => Ok (fillWithNoDataValue (static_cast T v) blockData numPixels)
      | None => Ok blockData
      end
  end.

(** The zero a value-initialised array holds. *)
Definition zero_pixel (t : GDALDataType) : pixel :=
  match t with
  | GDT_Float32 | GDT_Float64 => PxFlt (S754_zero false)
  | _ => PxInt 0
  end.

(** [memcpy] of one tile row of [width] pixels into the block row [y]. *)
Definition copy_row (tileData : buffer) (width blockWidth y : Z)
  (blockData : buffer) : buffer :=
  for_range 0 width
    (fun x blk => match load tileData (y * width + x) with
                  | Some v => store blk (y * blockWidth + x) v
                  | None => blk
                  end) blockData.

Definition fillPartialBlock (b : RasterBand) (tile : Tile) (blockData : buffer)
  : outcome buffer :=
  let '(m_width, m_height) := GetTileRegion tile in
  if (m_width >? nBlockXSize b) || (m_height >? nBlockYSize b) then
    Throw (logic_error
      "RasterBand::fillPartialBlock(): a tile dimension is larger than the block's!")
  else
    let numTilePixels := m_width * m_height in
    tileData <- readTile b tile numTilePixels
                  (replicate (Z.to_nat numTilePixels) (zero_pixel (eDataType b))) ;;
    Ok (for_range 0 m_height
          (fun y blk => copy_row tileData m_width (nBlockXSize b) y blk)
          blockData).

(** Returns [false] if there is no tile for this block. *)
Definition readBlock `{Target} (b : RasterBand) (tileIterator : TileIterator)
  (blockIndex : Z * Z) (data : buffer) : outcome (bool * buffer) :=
  match tileIterator (fst blockIndex) (snd blockIndex) with
  | None =>
      data' <- fillNoDataBlock b data ;;
      Ok (false, data')
  | Some tile =>
      let numTilePixels := GetPixelCount tile in
      let numBlockPixels := getNumPixelsPerBlock b in
      if numTilePixels =? numBlockPixels then
        data' <- readTile b tile numBlockPixels data ;;
        Ok (true, data')
      else
        data' <- fillPartialBlock b tile data ;;
        Ok (true, data')
  end.

(** *** The coverage mask *)

(** The geometry the loop of the mask shares between its rows. *)
Record MaskGeometry := {
  res : spec_float;
  radius : spec_float;
  radiusSquared : spec_float;
  txX : spec_float;
  txY : spec_float;
  leftmostPixelCenter : spec_float;
  topmostPixelCenter : spec_float
}.

Definition maskGeometry (api : ApiWrapper) : MaskGeometry :=
  let pd := predData api in
  let bb := boundingBox api in
  let res := Fp.div (Fp.of_int (nResolution_cm pd)) Fp.hundred in
  let radius := Fp.div (Fp.of_int (nRadius_cm pd)) Fp.hundred in
  {| res := res;
     radius := radius;
     radiusSquared := Fp.mul radius radius;
     txX := Fp.div (Fp.of_int (nX_cm pd)) Fp.hundred;
     txY := Fp.div (Fp.of_int (nY_cm pd)) Fp.hundred;
     leftmostPixelCenter := Fp.add (fst (min_corner bb)) (Fp.mul Fp.half res);
     topmostPixelCenter := Fp.sub (snd (max_corner bb)) (Fp.mul Fp.half res) |}.

(** The vertical distance of a row from the transmitter. *)
Definition yDistance (g : MaskGeometry) (rowIndex : Z) : spec_float :=
  let y := Fp.sub (topmostPixelCenter g) (Fp.mul (Fp.of_int rowIndex) (res g)) in
  Fp.abs (Fp.sub y (txY g)).

(** The two quotients the segment of a row inside the radius is read from. *)
Definition xDistance (g : MaskGeometry) (rowIndex : Z) : spec_float :=
  let yd := yDistance g rowIndex in
  Fp.sqrt (Fp.sub (radiusSquared g) (Fp.mul yd yd)).

Definition startQuotient (g : MaskGeometry) (rowIndex : Z) : spec_float :=
  let segmentStart := Fp.sub (txX g) (xDistance g rowIndex) in
  Fp.div (Fp.sub segmentStart (leftmostPixelCenter g)) (res g).

Definition endQuotient (g : MaskGeometry) (rowIndex : Z) : spec_float :=
  let segmentEnd := Fp.add (txX g) (xDistance g rowIndex) in
  Fp.div (Fp.sub segmentEnd (leftmostPixelCenter g)) (res g).

(** The body of the loop: the segment of one row. *)
Definition rowSegmentOf `{Target} (g : MaskGeometry) (rowIndex : Z) : RowSegment :=
  if Fp.gtb (yDistance g rowIndex) (radius g) then
    {| seg_start := 0; seg_end := 0 |}
  else
    {| seg_start := to_int I32 (Fp.ceil (startQuotient g rowIndex));
       seg_end := int_add (to_int I32 (Fp.floor (endQuotient g rowIndex))) 1 |}.

(** [std::vector::resize] with value-initialised new elements. *)
Definition resize (v : list RowSegment) (n : Z) : list RowSegment :=
  take (Z.to_nat n) v
  ++ replicate (Z.to_nat n - length v) {| seg_start := 0; seg_end := 0 |}.

Definition computeRowSegmentsInsidePredictionRadius `{Target} (b : RasterBand)
  : RasterBand :=
  let g := maskGeometry (apiWrapper b) in
  let v := resize (rowSegmentsInsidePredictionRadius b) (nRasterYSize b) in
  set_rowSegments b
    (for_range 0 (nRasterYSize b)
       (fun rowIndex v => <[Z.to_nat rowIndex := rowSegmentOf g rowIndex]> v) v).

(** *** The post-processor *)

(** [v[i]] on the cache: outside the vector there is no defined behaviour. *)
Definition vector_at (v : list RowSegment) (i : Z) : outcome RowSegment :=
  if i <? 0 then Undefined
  else match v !! Z.to_nat i with
       | Some s => Ok s
       | None => Undefined
       end.

(** [const int startColumnIndex = blockIndex.get<0>() * nBlockXSize]. *)
Definition startColumnIndex (b : RasterBand) (blockIndex : Z * Z) : Z :=
  int_mul (fst blockIndex) (nBlockXSize b).

(** "make the row segment relative to the block and clip it": the two
    differences are differences of [int]. *)
Definition clipToBlock (b : RasterBand) (blockIndex : Z * Z)
  (rowSegment : RowSegment) : RowSegment :=
  {| seg_start :=
       Z.max 0 (Z.min (nBlockXSize b)
                  (int_sub (seg_start rowSegment) (startColumnIndex b blockIndex)));
     seg_end :=
       Z.max 0 (Z.min (nBlockXSize b)
                  (int_sub (seg_end rowSegment) (startColumnIndex b blockIndex))) |}.

(** The lambda [computeBlockRowSegment] of [postProcessBlock]. *)
Definition computeBlockRowSegment (b : RasterBand) (blockIndex : Z * Z) (y : Z)
  : outcome RowSegment :=
  let startRowIndex := snd blockIndex * nBlockYSize b in
  rowSegment <- vector_at (rowSegmentsInsidePredictionRadius b) (startRowIndex + y) ;;
  Ok (clipToBlock b blockIndex rowSegment).

(** The band once the cache is there: computed on the first call that
    finds it empty. *)
Definition withRowSegments `{Target} (b0 : RasterBand) : RasterBand :=
  match rowSegmentsInsidePredictionRadius b0 with
  | [] => computeRowSegmentsInsidePredictionRadius b0
  | _ => b0
  end.

Definition postProcessBlock `{Target} (b0 : RasterBand) (blockIndex : Z * Z)
  (data : buffer) : outcome (RasterBand * buffer) :=
  let b := withRowSegments b0 in
  let '(minValue, maxValue) :=
    snd (getValidValuesRange (sectionNum b) (Fp.nan, Fp.nan)) in
  match ctype_of (eDataType b) with
  | Some T =>
      data' <- for_rangeM 0 (nBlockYSize b)
                 (fun y d =>
                    seg <- computeBlockRowSegment b blockIndex y ;;
                    Ok (postProcessBlockRow T d (y * nBlockXSize b) (nBlockXSize b)
                          seg (noDataValue b) minValue maxValue))
                 data ;;
      Ok (b, data')
  | None => Ok (b, data)
  end.

(** [IReadBlock]: a thrown exception becomes [CE_Failure].  Every [throw]
    of [readBlock] precedes the first write to the image, so the image of a
    failed read is the one passed in. *)
Definition IReadBlock `{Target} (b : RasterBand) (nXBlockOff nYBlockOff : Z)
  (pImage : buffer) : outcome (CPLErr * RasterBand * buffer) :=
  let blockIndex := (nXBlockOff, nYBlockOff) in
  let tileIterator := CreateTileIterator (apiWrapper b) (sectionNum b) in
  match
    r <- readBlock b tileIterator blockIndex pImage ;;
    if fst r then postProcessBlock b blockIndex (snd r) else Ok (b, snd r)
  with
  | Ok (b', data) => Ok (CE_None, b', data)
  | Throw _ => Ok (CE_Failure, b, pImage)
  | Undefined => Undefined
  end.

(** ** Concrete bands, tiles and blocks *)

Module Scenario.

(** A tile of [w] x [h] pixels holding [values], for every element type. *)
Definition tile_of (w h : Z) (values : list pixel) : Tile :=
  {| GetPixelCount := w * h;
     GetTileRegion := (w, h);
     GetData := fun _ n => take (Z.to_nat n) values |}.

Definition no_tiles : Z -> TileIterator := fun _ _ _ => None.

Definition same_tile (t : Tile) : Z -> TileIterator := fun _ _ _ => Some t.

(** A raster of [w] x [h] metres at a resolution of one metre, its lower
    left corner at the origin, around a transmitter at ([x_cm], [y_cm])
    with a radius of [r_cm]. *)
Definition api_of (w h x_cm y_cm r_cm : Z) (tiles : Z -> TileIterator) : ApiWrapper :=
  {| predData :=
       {| nResolution_cm := 100; nRadius_cm := r_cm; nX_cm := x_cm; nY_cm := y_cm |};
     boundingBox :=
       {| min_corner := (Fp.of_int 0, Fp.of_int 0);
          max_corner := (Fp.of_int w, Fp.of_int h) |};
     CreateTileIterator := tiles |}.

(** The scenario of the spec: raster 4 x 4, block 2 x 2, section 0, 16-bit
    signed pixels, the sentinel -9999 of that encoding, and a transmitter
    whose disk holds the centres of the two left columns in the two upper
    rows. *)
Definition tile9 : Tile :=
  tile_of 2 2 [PxInt 300; PxInt (-50); PxInt 1000; PxInt 5].

Definition band9 : RasterBand :=
  new_RasterBand (4, 4) (api_of 4 4 100 300 100 (same_tile tile9)) 0
    {| dataType := GDT_Int16; tileSizeInPixels := (2, 2) |}.

Definition blank4 : buffer := [PxInt 0; PxInt 0; PxInt 0; PxInt 0].

(** The same band over a provider that has no tile. *)
Definition band_sparse : RasterBand :=
  new_RasterBand (4, 4) (api_of 4 4 100 300 100 no_tiles) 0
    {| dataType := GDT_Int16; tileSizeInPixels := (2, 2) |}.

(** A provider whose tile has the pixel count of the 2 x 2 block and a
    region of 4 x 1. *)
Definition tile_4x1 : Tile :=
  {| GetPixelCount := 4;
     GetTileRegion := (4, 1);
     GetData := fun _ n => take (Z.to_nat n) [PxInt 1; PxInt 2; PxInt 3; PxInt 4] |}.

Definition band_4x1 : RasterBand :=
  new_RasterBand (4, 4) (api_of 4 4 100 300 100 (same_tile tile_4x1)) 0
    {| dataType := GDT_Int16; tileSizeInPixels := (2, 2) |}.

(** A provider whose tile is 3 x 1 and so wider than the 2 x 2 block. *)
Definition band_3x1 : RasterBand :=
  new_RasterBand (4, 4)
    (api_of 4 4 100 300 100 (same_tile (tile_of 3 1 [PxInt 1; PxInt 2; PxInt 3]))) 0
    {| dataType := GDT_Int16; tileSizeInPixels := (2, 2) |}.

(** A raster of one pixel under the transmitter, one block of one pixel. *)
Definition band_1x1 (section : Z) (t : GDALDataType) (value : pixel) : RasterBand :=
  new_RasterBand (1, 1) (api_of 1 1 50 50 100 (same_tile (tile_of 1 1 [value])))
    section {| dataType := t; tileSizeInPixels := (1, 1) |}.

(** A band of complex 16-bit pixels whose caller has set a sentinel, over a
    provider that has no tile. *)
Definition band_cint16 : RasterBand :=
  snd (SetNoDataValue
         (new_RasterBand (4, 4) (api_of 4 4 100 300 100 no_tiles) 0
            {| dataType := GDT_CInt16; tileSizeInPixels := (2, 2) |})
         (Fp.of_int 0)).

(** A band of complex 16-bit pixels over a provider that has tiles. *)
Definition band_cint16_tiled : RasterBand :=
  new_RasterBand (4, 4) (api_of 4 4 100 300 100 (same_tile tile9)) 0
    {| dataType := GDT_CInt16; tileSizeInPixels := (2, 2) |}.

(** The floating value 5 as a 32-bit pixel. *)
Definition five : pixel := PxFlt (Fp.to_float (Fp.of_int 5)).

(** A raster of height 5 in blocks of height 2: three block rows, the last
    one a single raster row. *)
Definition band_h5 : RasterBand :=
  new_RasterBand (1, 5)
    (api_of 1 5 50 250 1000 (same_tile (tile_of 1 2 [PxInt 7; PxInt 8]))) 0
    {| dataType := GDT_Int16; tileSizeInPixels := (1, 2) |}.

(** A raster of 2 x 1 pixels of one metre around a transmitter at the
    origin, which lies on the edge between the two pixels: its radius of
    30 cm reaches neither pixel centre. *)
Definition band_narrow : RasterBand :=
  new_RasterBand (2, 1)
    {| predData :=
         {| nResolution_cm := 100; nRadius_cm := 30; nX_cm := 0; nY_cm := 0 |};
       boundingBox :=
         {| min_corner := (Fp.of_int (-1), SFopp Fp.half);
            max_corner := (Fp.of_int 1, Fp.half) |};
       CreateTileIterator := no_tiles |}
    0 {| dataType := GDT_Int16; tileSizeInPixels := (2, 1) |}.

(** A band without a sentinel (16-bit unsigned pixels have no default one)
    whose cached segment of row 0 is [0, 1), in blocks of width 2. *)
Definition band_unmasked : RasterBand :=
  set_rowSegments
    (new_RasterBand (2, 1) (api_of 2 1 0 0 100 no_tiles) 0
       {| dataType := GDT_UInt16; tileSizeInPixels := (2, 1) |})
    [{| seg_start := 0; seg_end := 1 |}].

End Scenario.

(** ** The post-processor in closed form *)

(** The buffer with the pixel at [i], if there is one, replaced by its
    image under [f]: the shape of every loop body of the post-processor. *)
Definition modify_at (i : Z) (f : pixel -> pixel) (d : buffer) : buffer :=
  match load d i with
  | Some v => store d i (f v)
  | None => d
  end.

(** What the clamping loop makes of one pixel value. *)
Definition clamp_val (tnd : option pixel) (lo hi value : pixel) : pixel :=
  if match tnd with
     | Some nd => px_eqb value nd
     | None => false
     end
  then value
  else if px_ltb value lo then lo
  else if px_ltb hi value then hi
  else value.

(** What the three loops make of the pixel at column [x] of a row. *)
Definition row_pixel (tnd : option pixel) (lo hi : pixel) (seg : RowSegment)
  (x : Z) (v : pixel) : pixel :=
  match tnd with
  | Some nd =>
      if x <? seg_start seg then nd
      else if x <? seg_end seg then clamp_val tnd lo hi v
      else nd
  | None =>
      if (seg_start seg <=? x) && (x <? seg_end seg) then clamp_val tnd lo hi v
      else v
  end.

(** The cached segment of a raster row. *)
Definition rowSegmentAt (b : RasterBand) (rowIndex : Z) : RowSegment :=
  default {| seg_start := 0; seg_end := 0 |}
    (rowSegmentsInsidePredictionRadius b !! Z.to_nat rowIndex).

(** The bounds of the band's section converted to the element type. *)
Definition typedMinValue `{Target} (b : RasterBand) (T : CType) : pixel :=
  static_cast T (fst (snd (getValidValuesRange (sectionNum b) (Fp.nan, Fp.nan)))).

Definition typedMaxValue `{Target} (b : RasterBand) (T : CType) : pixel :=
  static_cast T (snd (snd (getValidValuesRange (sectionNum b) (Fp.nan, Fp.nan)))).

(** What post-processing the block at [blockIndex] makes of the pixel at
    offset [j] of the block buffer. *)
Definition block_pixel `{Target} (b : RasterBand) (blockIndex : Z * Z) (T : CType)
  (j : nat) (v : pixel) : pixel :=
  if decide (0 <= Z.of_nat j < nBlockYSize b * nBlockXSize b) then
    row_pixel (option_map (static_cast T) (noDataValue b))
      (typedMinValue b T) (typedMaxValue b T)
      (clipToBlock b blockIndex
         (rowSegmentAt b (snd blockIndex * nBlockYSize b
                          + Z.of_nat j / nBlockXSize b)))
      (Z.of_nat j mod nBlockXSize b) v
  else v.

(** The pixels of [t] at an offset of at least [n] are those of [d]. *)
Definition kept_from (n : Z) (d t : buffer) : Prop :=
  forall j : nat, n <= Z.of_nat j -> t !! j = d !! j.

(** ** More bands and tiles *)

Module Cases.

(** A tile of one row of two pixels, smaller than a block of 2 x 2. *)
Definition tile_2x1 : Tile := Scenario.tile_of 2 1 [PxInt 1; PxInt 2].

Definition band_partial : RasterBand :=
  new_RasterBand (4, 4)
    (Scenario.api_of 4 4 100 300 100 (Scenario.same_tile tile_2x1)) 0
    {| dataType := GDT_Int16; tileSizeInPixels := (2, 2) |}.

(** Four 32-bit floating pixels, the third one a NaN. *)
Definition floats4 : buffer :=
  [PxFlt (Fp.to_float (Fp.of_int 300)); PxFlt (Fp.to_float (Fp.of_int (-50)));
   PxFlt Fp.nan; PxFlt (Fp.to_float (Fp.of_int 5))].

(** The band of the scenario with 32-bit floating pixels. *)
Definition band_f32 : RasterBand :=
  new_RasterBand (4, 4)
    (Scenario.api_of 4 4 100 300 100 (Scenario.same_tile (Scenario.tile_of 2 2 floats4)))
    0 {| dataType := GDT_Float32; tileSizeInPixels := (2, 2) |}.

(** An image that is one pixel longer than the block of 2 x 2. *)
Definition image5 : buffer := Scenario.blank4 ++ [PxInt 42].

(** A raster of one pixel of one metre whose left edge lies 2147483647.5 m
    left of the transmitter at the origin, which has a radius of 50 cm: the
    chord of the only row ends at the column 2147483647. *)
Definition band_far : RasterBand :=
  new_RasterBand (1, 1)
    {| predData :=
         {| nResolution_cm := 100; nRadius_cm := 50; nX_cm := 0; nY_cm := 0 |};
       boundingBox :=
         {| min_corner := (Fp.sub (Fp.of_int (-2147483647)) Fp.half, SFopp Fp.half);
            max_corner := (Fp.sub (Fp.of_int (-2147483646)) Fp.half, Fp.half) |};
       CreateTileIterator := Scenario.no_tiles |}
    0 {| dataType := GDT_Int16; tileSizeInPixels := (1, 1) |}.

(** A band of two blocks of 2 x 1 with the sentinel -9999 whose cached
    segment of row 0 starts 2147483647 columns left of the raster. *)
Definition band_wide : RasterBand :=
  set_rowSegments
    (new_RasterBand (4, 1) (Scenario.api_of 4 1 0 0 100 Scenario.no_tiles) 0
       {| dataType := GDT_Int16; tileSizeInPixels := (2, 1) |})
    [{| seg_start := -2147483647; seg_end := 3 |}].

(** A raster of 4 x 1 pixels of one centimetre in two blocks of 2 x 1,
    its left edge at a transmitter whose radius is 2147483647 cm: the disk
    covers the raster, and the chord of the only row starts 2147483647
    columns left of it. *)
Definition band_huge : RasterBand :=
  new_RasterBand (4, 1)
    {| predData :=
         {| nResolution_cm := 1; nRadius_cm := 2147483647; nX_cm := 0; nY_cm := 0 |};
       boundingBox :=
         {| min_corner :=
              (Fp.of_int 0, SFopp (Fp.div (Fp.of_int 1) (Fp.of_int 200)));
            max_corner :=
              (Fp.div (Fp.of_int 4) Fp.hundred,
               Fp.div (Fp.of_int 1) (Fp.of_int 200)) |};
       CreateTileIterator :=
         Scenario.same_tile (Scenario.tile_of 2 1 [PxInt 300; PxInt (-50)]) |}
    0 {| dataType := GDT_Int16; tileSizeInPixels := (2, 1) |}.

(** The pixels of the tile of the scenario. *)
Definition pixels9 : buffer := [PxInt 300; PxInt (-50); PxInt 1000; PxInt 5].

End Cases.

(** * Facts on floating values *)

Section FloatFacts.

Lemma digits2_pos_bounds (m : positive) :
  2 ^ (Zpos (digits2_pos m) - 1) <= Zpos m < 2 ^ Zpos (digits2_pos m).
Proof.
  induction m as [m IH | m IH |]; cbn [digits2_pos].
  - rewrite Pos2Z.inj_succ.
    replace (Z.succ (Z.pos (digits2_pos m)) - 1)
      with (Z.succ (Z.pos (digits2_pos m) - 1)) by lia.
    rewrite !Z.pow_succ_r by lia. lia.
  - rewrite Pos2Z.inj_succ.
    replace (Z.succ (Z.pos (digits2_pos m)) - 1)
      with (Z.succ (Z.pos (digits2_pos m) - 1)) by lia.
    rewrite !Z.pow_succ_r by lia. lia.
  - cbn. lia.
Qed.

Lemma digits2_pos_iter_xO (m k : positive) :
  Zpos (digits2_pos (Pos.iter xO m k)) = Zpos (digits2_pos m) + Zpos k.
Proof.
  induction k as [| k IH] using Pos.peano_ind.
  - cbn. lia.
  - rewrite Pos.iter_succ. cbn [digits2_pos]. lia.
Qed.

Lemma Zpos_iter_xO (m k : positive) :
  Zpos (Pos.iter xO m k) = Zpos m * 2 ^ Zpos k.
Proof.
  induction k as [| k IH] using Pos.peano_ind.
  - cbn. lia.
  - rewrite Pos.iter_succ, Pos2Z.inj_succ, Z.pow_succ_r by lia.
    rewrite Pos2Z.inj_xO, IH. lia.
Qed.

(** A mantissa of 53 bits with an exponent in range is not rounded. *)
Lemma binary_round_aux_exact (s : bool) (m : positive) (e : Z) :
  Zpos (digits2_pos m) = 53 -> -1074 <= e <= 971 ->
  binary_round_aux 53 1024 s (Zpos m) e loc_Exact = S754_finite s m e.
Proof.
  intros Hd He.
  assert (Hf : fexp 53 1024 (53 + e) = e).
  { unfold fexp, emin. lia. }
  unfold binary_round_aux, shr_fexp.
  cbn [Zdigits2 shr_record_of_loc]. rewrite Hd, Hf, Z.sub_diag.
  cbn [shr shr_m loc_of_shr_record round_nearest_even Zdigits2 shr_record_of_loc].
  rewrite Hd, Hf, Z.sub_diag. cbn [shr shr_m].
  destruct (Z.leb_spec e (1024 - 53)); [reflexivity | lia].
Qed.

Lemma trunc_binary_round (s : bool) (m : positive) :
  Zpos m < 2 ^ 53 ->
  Fp.trunc (binary_round 53 1024 s m 0) = Some (Fp.signed s m).
Proof.
  intros Hm.
  pose proof (digits2_pos_bounds m) as [Hlo _].
  assert (Hd : Zpos (digits2_pos m) <= 53).
  { destruct (Z.le_gt_cases (Zpos (digits2_pos m)) 53) as [|Hgt]; [assumption|].
    exfalso.
    assert (2 ^ 53 <= 2 ^ (Zpos (digits2_pos m) - 1))
      by (apply Z.pow_le_mono_r; lia).
    lia. }
  unfold binary_round.
  assert (Hf : fexp 53 1024 (Zpos (digits2_pos m) + 0) = Zpos (digits2_pos m) - 53).
  { unfold fexp, emin. lia. }
  rewrite Hf. unfold shl_align. rewrite Z.sub_0_r.
  destruct (Zpos (digits2_pos m) - 53) as [| p | k] eqn:Hk.
  - rewrite binary_round_aux_exact by lia. cbn. f_equal. unfold Fp.signed. lia.
  - lia.
  - rewrite binary_round_aux_exact.
    + unfold Fp.trunc. cbn [Z.leb Z.compare Z.opp].
      rewrite Zpos_iter_xO, Z.div_mul by (apply Z.pow_nonzero; lia).
      reflexivity.
    + rewrite digits2_pos_iter_xO. lia.
    + lia.
Qed.

(** The conversion of an integer below 2^53 to [double] is exact. *)
Lemma trunc_binary_normalize (z : Z) (s : bool) :
  Z.abs z < 2 ^ 53 ->
  Fp.trunc (binary_normalize 53 1024 z 0 s) = Some z.
Proof.
  destruct z as [| m | m]; intros Hz; cbn [binary_normalize].
  - reflexivity.
  - apply (trunc_binary_round false). lia.
  - apply (trunc_binary_round true). lia.
Qed.

Lemma in_range_I32_small (z : Z) : in_range I32 z = true -> Z.abs z < 2 ^ 53.
Proof. unfold in_range, int_min, int_max. lia. Qed.

Context `{Target}.

(** [int(std::ceil(q))] and [int(std::floor(q))] are the integer ceiling
    and floor of [q] whenever these fit an [int]. *)
Lemma to_int_ceil (q : spec_float) (c : Z) :
  Fp.ceilZ q = Some c -> in_range I32 c = true ->
  to_int I32 (Fp.ceil q) = c.
Proof.
  intros Hc Hr. unfold to_int.
  destruct q as [s | s | | s m e]; cbn in Hc; try discriminate.
  - injection Hc as <-. reflexivity.
  - injection Hc as <-. cbn [Fp.ceil].
    destruct (0 <=? e) eqn:He.
    + cbn [Fp.trunc]. rewrite He, Hr. reflexivity.
    + rewrite trunc_binary_normalize by (apply in_range_I32_small, Hr).
      rewrite Hr. reflexivity.
Qed.

Lemma to_int_floor (q : spec_float) (c : Z) :
  Fp.floorZ q = Some c -> in_range I32 c = true ->
  to_int I32 (Fp.floor q) = c.
Proof.
  intros Hc Hr. unfold to_int.
  destruct q as [s | s | | s m e]; cbn in Hc; try discriminate.
  - injection Hc as <-. reflexivity.
  - injection Hc as <-. cbn [Fp.floor].
    destruct (0 <=? e) eqn:He.
    + cbn [Fp.trunc]. rewrite He, Hr. reflexivity.
    + rewrite trunc_binary_normalize by (apply in_range_I32_small, Hr).
      rewrite Hr. reflexivity.
Qed.

End FloatFacts.

(** The ceiling is the least integer at or above the value, the floor the
    greatest integer at or below it. *)
Lemma ceilZ_least (q : spec_float) (c : Z) :
  Fp.ceilZ q = Some c ->
  exists v : Q, Fp.toQ q = Some v /\ forall k : Z, c <= k <-> (v <= inject_Z k)%Q.
Proof.
  destruct q as [s | s | | s m e]; cbn [Fp.ceilZ Fp.toQ]; intros Hc;
    try discriminate;
    injection Hc as <-; eexists; (split; [reflexivity |]); intros k.
  - unfold Qle; cbn [Qnum Qden inject_Z]. lia.
  - destruct (Z.leb_spec 0 e).
    + unfold Qle; cbn [Qnum Qden inject_Z]. lia.
    + assert (Hp : 0 < 2 ^ (- e)) by (apply Z.pow_pos_nonneg; lia).
      unfold Qle; cbn [Qnum Qden inject_Z]. rewrite Z2Pos.id by exact Hp.
      pose proof (Z.div_mod (- Fp.signed s m) (2 ^ (- e)) ltac:(lia)).
      pose proof (Z.mod_pos_bound (- Fp.signed s m) (2 ^ (- e)) Hp).
      nia.
Qed.

Lemma floorZ_greatest (q : spec_float) (c : Z) :
  Fp.floorZ q = Some c ->
  exists v : Q, Fp.toQ q = Some v /\ forall k : Z, k <= c <-> (inject_Z k <= v)%Q.
Proof.
  destruct q as [s | s | | s m e]; cbn [Fp.floorZ Fp.toQ]; intros Hc;
    try discriminate;
    injection Hc as <-; eexists; (split; [reflexivity |]); intros k.
  - unfold Qle; cbn [Qnum Qden inject_Z]. lia.
  - destruct (Z.leb_spec 0 e).
    + unfold Qle; cbn [Qnum Qden inject_Z]. lia.
    + assert (Hp : 0 < 2 ^ (- e)) by (apply Z.pow_pos_nonneg; lia).
      unfold Qle; cbn [Qnum Qden inject_Z]. rewrite Z2Pos.id by exact Hp.
      pose proof (Z.div_mod (Fp.signed s m) (2 ^ (- e)) ltac:(lia)).
      pose proof (Z.mod_pos_bound (Fp.signed s m) (2 ^ (- e)) Hp).
      nia.
Qed.

(** Comparisons: swapping the operands reverses the answer, and no value is
    below itself. *)
Lemma SFcompare_antisym (a b : spec_float) :
  SFcompare b a = option_map CompOpp (SFcompare a b).
Proof.
  destruct a as [sa | sa | | sa ma ea], b as [sb | sb | | sb mb eb]; cbn;
    try reflexivity;
    try (destruct sa; reflexivity); try (destruct sb; reflexivity);
    try (destruct sa, sb; reflexivity).
  destruct sa, sb; try reflexivity;
    rewrite (Z.compare_antisym ea eb); destruct (ea ?= eb); cbn; try reflexivity;
    rewrite (Pos.compare_cont_antisym ma mb Eq); cbn;
    destruct (Pos.compare_cont Eq ma mb); reflexivity.
Qed.

Lemma leb_not_gtb (a b : spec_float) : Fp.leb a b = true -> Fp.gtb a b = false.
Proof.
  unfold Fp.leb, Fp.gtb, SFleb, SFltb. rewrite (SFcompare_antisym a b).
  destruct (SFcompare a b) as [[]|]; cbn; congruence.
Qed.

Lemma SFltb_irrefl (a : spec_float) : SFltb a a = false.
Proof.
  unfold SFltb.
  destruct a as [s | s | | s m e]; cbn; try reflexivity;
    try (destruct s; reflexivity).
  destruct s; rewrite Z.compare_refl, Pos.compare_cont_refl; reflexivity.
Qed.

(** * Facts on loops and buffers *)

Lemma modify_at_lookup (i : Z) (f : pixel -> pixel) (d : buffer) (j : nat) :
  0 <= i ->
  modify_at i f d !! j = if decide (j = Z.to_nat i) then f <$> (d !! j) else d !! j.
Proof.
  intros Hi. unfold modify_at, load, store.
  destruct (Z.ltb_spec i 0) as [|_]; [lia|].
  destruct (d !! Z.to_nat i) as [v|] eqn:Hv.
  - destruct (decide (j = Z.to_nat i)) as [->|Hne].
    + rewrite list_lookup_insert_eq by (eapply lookup_lt_Some; eauto).
      rewrite Hv. reflexivity.
    + rewrite list_lookup_insert_ne by congruence. reflexivity.
  - destruct (decide (j = Z.to_nat i)) as [->|Hne]; [rewrite Hv|]; reflexivity.
Qed.

Lemma modify_at_length (i : Z) (f : pixel -> pixel) (d : buffer) :
  length (modify_at i f d) = length d.
Proof.
  unfold modify_at, store. destruct (load d i); [|reflexivity].
  destruct (i <? 0); [reflexivity|]. apply length_insert.
Qed.

Lemma store_modify_at (d : buffer) (i : Z) (v : pixel) :
  store d i v = modify_at i (fun _ => v) d.
Proof.
  unfold modify_at, load, store. destruct (i <? 0); [reflexivity|].
  destruct (d !! Z.to_nat i) eqn:Hv; [reflexivity|].
  apply list_insert_ge. apply lookup_ge_None. exact Hv.
Qed.

Lemma for_loop_ext {S : Type} (f g : Z -> S -> S) (n : nat) (a : Z) (s : S) :
  (forall x t, f x t = g x t) -> for_loop n a f s = for_loop n a g s.
Proof.
  intros Hfg. revert a s. induction n as [|n IH]; intros a s; cbn; [reflexivity|].
  rewrite Hfg. apply IH.
Qed.

Lemma for_loop_modify_length (f : Z -> pixel -> pixel) (base : Z) (n : nat) (a : Z)
  (d : buffer) :
  length (for_loop n a (fun x t => modify_at (base + x) (f x) t) d) = length d.
Proof.
  revert a d. induction n as [|n IH]; intros a d; cbn; [reflexivity|].
  rewrite IH. apply modify_at_length.
Qed.

(** A loop whose body rewrites the pixel of its own column rewrites the
    columns of its range, each from the initial value, and nothing else. *)
Lemma for_loop_modify_lookup (f : Z -> pixel -> pixel) (base : Z) (n : nat) (a : Z)
  (d : buffer) (j : nat) :
  0 <= base + a ->
  for_loop n a (fun x t => modify_at (base + x) (f x) t) d !! j
  = if decide (Z.to_nat (base + a) <= j < Z.to_nat (base + a) + n)%nat
    then f (Z.of_nat j - base) <$> (d !! j) else d !! j.
Proof.
  revert a d. induction n as [|n IH]; intros a d Ha; cbn [for_loop].
  - destruct (decide _) as [Hj|_]; [lia | reflexivity].
  - rewrite IH by lia. rewrite modify_at_lookup by lia.
    replace (Z.to_nat (base + (a + 1)))
      with (Datatypes.S (Z.to_nat (base + a))) by lia.
    destruct (decide (j = Z.to_nat (base + a))) as [->|Hne].
    + destruct (decide (_ <= _ < _)%nat) as [Hj|_]; [lia|].
      destruct (decide (_ <= _ < _)%nat) as [_|Hj]; [|lia].
      replace (Z.of_nat (Z.to_nat (base + a)) - base) with a by lia. reflexivity.
    + destruct (decide (_ <= _ < _)%nat) as [Hj|Hj];
        destruct (decide (_ <= _ < _)%nat) as [Hj'|Hj']; try lia; reflexivity.
Qed.

Lemma fillWithNoDataValue_all (v : pixel) (data : buffer) :
  fillWithNoDataValue v data (Z.of_nat (length data)) = replicate (length data) v.
Proof.
  unfold fillWithNoDataValue, for_range.
  rewrite (for_loop_ext _ (fun x t => modify_at (0 + x) ((fun _ _ => v) x) t))
    by (intros; apply store_modify_at).
  apply list_eq. intros j.
  rewrite for_loop_modify_lookup by lia.
  replace (Z.to_nat (Z.of_nat (length data) - 0)) with (length data) by lia.
  destruct (decide _) as [Hj|Hj].
  - rewrite lookup_replicate_2 by lia.
    destruct (lookup_lt_is_Some_2 data j ltac:(lia)) as [w ->]. reflexivity.
  - rewrite !lookup_ge_None_2; [reflexivity | rewrite length_replicate; lia | lia].
Qed.

(** A loop that assigns the element of its own index. *)
Lemma for_loop_insert_lookup {A : Type} (F : Z -> A) (n : nat) (a : Z)
  (v : list A) (j : nat) :
  0 <= a ->
  for_loop n a (fun x t => <[Z.to_nat x := F x]> t) v !! j
  = if decide ((Z.to_nat a <= j < Z.to_nat a + n)%nat /\ (j < length v)%nat)
    then Some (F (Z.of_nat j)) else v !! j.
Proof.
  revert a v. induction n as [|n IH]; intros a v Ha; cbn [for_loop].
  - destruct (decide _) as [Hj|_]; [lia | reflexivity].
  - rewrite IH by lia. rewrite length_insert.
    replace (Z.to_nat (a + 1)) with (Datatypes.S (Z.to_nat a)) by lia.
    destruct (decide (j = Z.to_nat a)) as [->|Hne].
    + destruct (decide (_ /\ _)) as [Hj|_]; [lia|].
      destruct (decide (_ /\ _)) as [[_ Hj]|Hj].
      * rewrite list_lookup_insert_eq by lia. f_equal. f_equal. lia.
      * rewrite !lookup_ge_None_2; [reflexivity | lia | rewrite length_insert; lia].
    + rewrite list_lookup_insert_ne by congruence.
      destruct (decide (_ /\ _)) as [Hj|Hj];
        destruct (decide (_ /\ _)) as [Hj'|Hj']; try lia; reflexivity.
Qed.

Lemma for_loop_insert_length {A : Type} (F : Z -> A) (n : nat) (a : Z)
  (v : list A) :
  length (for_loop n a (fun x t => <[Z.to_nat x := F x]> t) v) = length v.
Proof.
  revert a v. induction n as [|n IH]; intros a v; cbn [for_loop]; [reflexivity|].
  rewrite IH. apply length_insert.
Qed.

Lemma resize_length (v : list RowSegment) (n : Z) :
  length (resize v n) = Z.to_nat n.
Proof.
  unfold resize. rewrite length_app, length_take, length_replicate. lia.
Qed.

(** The loop that records its columns lists its range in order. *)
Lemma for_loop_record (n : nat) (a : Z) (l : list Z) :
  for_loop n a (fun x visited => visited ++ [x]) l = l ++ seqZ a (Z.of_nat n).
Proof.
  revert a l. induction n as [|n IH]; intros a l; cbn [for_loop].
  - cbn. rewrite app_nil_r. reflexivity.
  - rewrite IH, <- app_assoc. f_equal.
    rewrite (seqZ_cons a (Z.of_nat (Datatypes.S n))) by lia.
    cbn [app]. f_equal. f_equal; lia.
Qed.

Lemma for_range_record (a b : Z) (l : list Z) :
  for_range a b (fun x visited => visited ++ [x]) l = l ++ seqZ a (Z.max 0 (b - a)).
Proof.
  unfold for_range. rewrite for_loop_record. f_equal. f_equal. lia.
Qed.

(** * The coverage mask *)

Section Mask.

Context `{Target}.

(** After the mask is computed the cache holds, for every raster row, the
    segment the loop body computes for it. *)
Lemma computeRowSegments_lookup (b : RasterBand) (rowIndex : Z) :
  0 <= rowIndex < nRasterYSize b ->
  rowSegmentsInsidePredictionRadius (computeRowSegmentsInsidePredictionRadius b)
    !! Z.to_nat rowIndex
  = Some (rowSegmentOf (maskGeometry (apiWrapper b)) rowIndex).
Proof.
  intros Hr. unfold computeRowSegmentsInsidePredictionRadius, for_range.
  cbn [rowSegmentsInsidePredictionRadius set_rowSegments].
  rewrite for_loop_insert_lookup by lia. rewrite resize_length.
  destruct (decide _) as [_|Hj]; [|lia].
  f_equal. f_equal. lia.
Qed.

Lemma computeRowSegments_length (b : RasterBand) :
  length (rowSegmentsInsidePredictionRadius
            (computeRowSegmentsInsidePredictionRadius b))
  = Z.to_nat (nRasterYSize b).
Proof.
  unfold computeRowSegmentsInsidePredictionRadius, for_range.
  cbn [rowSegmentsInsidePredictionRadius set_rowSegments].
  rewrite for_loop_insert_length. apply resize_length.
Qed.

End Mask.

(** C2 (amended): for every raster row whose vertical distance from the
    transmitter exceeds the coverage radius, the segment cached for the row
    is exactly [0, 0), hence empty.  (The converse is not claimed: a row
    within the radius has an empty segment too whenever no pixel centre
    lies on its chord.) *)
Theorem C2_row_beyond_radius_has_segment_0_0 `{Target} (b : RasterBand)
  (rowIndex : Z) :
  0 <= rowIndex < nRasterYSize b ->
  Fp.gtb (yDistance (maskGeometry (apiWrapper b)) rowIndex)
         (radius (maskGeometry (apiWrapper b))) = true ->
  rowSegmentsInsidePredictionRadius (computeRowSegmentsInsidePredictionRadius b)
    !! Z.to_nat rowIndex
  = Some {| seg_start := 0; seg_end := 0 |}.
Proof.
  intros Hr Hgt. rewrite computeRowSegments_lookup by exact Hr.
  unfold rowSegmentOf. rewrite Hgt. reflexivity.
Qed.

(** Row 2 of the 4 x 4 scenario lies 1.5 m from a transmitter of radius 1 m. *)
Lemma C2_row_beyond_radius_witness :
  0 <= 2 < nRasterYSize Scenario.band9
  /\ Fp.gtb (yDistance (maskGeometry (apiWrapper Scenario.band9)) 2)
            (radius (maskGeometry (apiWrapper Scenario.band9))) = true
  /\ rowSegmentsInsidePredictionRadius
       (@computeRowSegmentsInsidePredictionRadius x86_64 Scenario.band9)
       !! Z.to_nat 2
     = Some {| seg_start := 0; seg_end := 0 |}.
Proof.
  split; [cbn; lia |]. split; [reflexivity |].
  apply (@C2_row_beyond_radius_has_segment_0_0 x86_64 Scenario.band9 2);
    [cbn; lia | reflexivity].
Defined.

(** C2 (the claim as stated fails): the only row of the narrow raster is at
    distance 0 from the transmitter, within the radius of 0.3 m, and its
    segment [1, 1) is empty: the chord [-0.3, 0.3] holds neither the pixel
    centre at -0.5 nor the one at 0.5. *)
Lemma C2_row_within_radius_with_empty_segment :
  Fp.leb (yDistance (maskGeometry (apiWrapper Scenario.band_narrow)) 0)
         (radius (maskGeometry (apiWrapper Scenario.band_narrow))) = true
  /\ Fp.gtb (yDistance (maskGeometry (apiWrapper Scenario.band_narrow)) 0)
            (radius (maskGeometry (apiWrapper Scenario.band_narrow))) = false
  /\ rowSegmentsInsidePredictionRadius
       (@computeRowSegmentsInsidePredictionRadius x86_64 Scenario.band_narrow)
     = [{| seg_start := 1; seg_end := 1 |}].
Proof. repeat split; vm_compute; reflexivity. Qed.

(** A value of the type is its own reduction. *)
Lemma wrap_in_range (k : IntKind) (z : Z) : in_range k z = true -> wrap k z = z.
Proof.
  unfold in_range, wrap. intros Hr. apply andb_true_iff in Hr as [Hlo Hhi].
  apply Z.leb_le in Hlo, Hhi. rewrite Z.mod_small; lia.
Qed.

(** C7 (amended): for every raster row whose vertical distance [dy] from
    the transmitter is at most the radius, with
    dx = sqrt(radius^2 - dy^2) and the two quotients
    (tx - dx - leftmostPixelCenter) / res and
    (tx + dx - leftmostPixelCenter) / res computed in [double]: whenever the
    ceiling [cs] of the left quotient, the floor [ce] of the right quotient
    and [ce + 1] are values of an [int], the cached segment is
    [cs, ce + 1), where [cs] is the least integer at or above the left
    quotient and [ce] the greatest integer at or below the right one. *)
Theorem C7_segment_of_row_within_radius `{Target} (b : RasterBand)
  (rowIndex cs ce : Z) :
  let g := maskGeometry (apiWrapper b) in
  let y := Fp.sub (topmostPixelCenter g) (Fp.mul (Fp.of_int rowIndex) (res g)) in
  let dy := Fp.abs (Fp.sub y (txY g)) in
  let dx := Fp.sqrt (Fp.sub (radiusSquared g) (Fp.mul dy dy)) in
  let qs := Fp.div (Fp.sub (Fp.sub (txX g) dx) (leftmostPixelCenter g)) (res g) in
  let qe := Fp.div (Fp.sub (Fp.add (txX g) dx) (leftmostPixelCenter g)) (res g) in
  0 <= rowIndex < nRasterYSize b ->
  Fp.leb dy (radius g) = true ->
  Fp.ceilZ qs = Some cs -> in_range I32 cs = true ->
  Fp.floorZ qe = Some ce -> in_range I32 ce = true ->
  in_range I32 (ce + 1) = true ->
  rowSegmentsInsidePredictionRadius (computeRowSegmentsInsidePredictionRadius b)
    !! Z.to_nat rowIndex
  = Some {| seg_start := cs; seg_end := ce + 1 |}
  /\ (exists v : Q, Fp.toQ qs = Some v
        /\ forall k : Z, cs <= k <-> (v <= inject_Z k)%Q)
  /\ (exists v : Q, Fp.toQ qe = Some v
        /\ forall k : Z, k <= ce <-> (inject_Z k <= v)%Q).
Proof.
  intros g y dy dx qs qe Hr Hle Hcs Hrs Hce Hre Hre1.
  split; [|split; [apply ceilZ_least; exact Hcs | apply floorZ_greatest; exact Hce]].
  rewrite computeRowSegments_lookup by exact Hr. fold g.
  unfold rowSegmentOf.
  change (yDistance g rowIndex) with dy. rewrite (leb_not_gtb _ _ Hle).
  change (startQuotient g rowIndex) with qs.
  change (endQuotient g rowIndex) with qe.
  rewrite (to_int_ceil qs cs Hcs Hrs), (to_int_floor qe ce Hce Hre).
  unfold int_add. rewrite (wrap_in_range I32 (ce + 1) Hre1). reflexivity.
Qed.

(** Row 0 of the 4 x 4 scenario: the chord holds the centres of columns 0
    and 1. *)
Lemma C7_segment_of_row_within_radius_witness :
  rowSegmentsInsidePredictionRadius
    (@computeRowSegmentsInsidePredictionRadius x86_64 Scenario.band9)
    !! Z.to_nat 0
  = Some {| seg_start := 0; seg_end := 1 + 1 |}.
Proof.
  apply (proj1 (@C7_segment_of_row_within_radius x86_64 Scenario.band9 0 0 1
                  ltac:(vm_compute; split; [discriminate | reflexivity])
                  eq_refl eq_refl eq_refl eq_refl eq_refl eq_refl)).
Defined.

(** C7 (the claim as stated fails): the only row of the raster far left of
    the transmitter is at distance 0, within the radius; the floor of its
    right quotient 2147483647.5 is 2147483647, the greatest [int], and the
    end of the cached segment is -2147483648, not 2147483648. *)
Lemma C7_end_of_segment_overflows :
  Fp.leb (yDistance (maskGeometry (apiWrapper Cases.band_far)) 0)
         (radius (maskGeometry (apiWrapper Cases.band_far))) = true
  /\ Fp.ceilZ (startQuotient (maskGeometry (apiWrapper Cases.band_far)) 0)
     = Some 2147483647
  /\ Fp.floorZ (endQuotient (maskGeometry (apiWrapper Cases.band_far)) 0)
     = Some 2147483647
  /\ rowSegmentsInsidePredictionRadius
       (@computeRowSegmentsInsidePredictionRadius x86_64 Cases.band_far)
     = [{| seg_start := 2147483647; seg_end := -2147483648 |}]
  /\ -2147483648 <> 2147483647 + 1.
Proof.
  split; [reflexivity |]. split; [reflexivity |]. split; [reflexivity |].
  split; [vm_compute; reflexivity | discriminate].
Qed.

(** * The block assembler *)

(** C3: when the provider has no tile for the block, a band of one of the
    seven encodings with a sentinel fills every pixel of the block buffer
    with the sentinel converted to the encoding and reports the tile absent
    (the read succeeds); without a sentinel the read fails and the image is
    left as it was. *)
Theorem C3_absent_tile_is_sentinel_filled_or_fails `{Target} (b : RasterBand)
  (T : CType) (nXBlockOff nYBlockOff : Z) (pImage : buffer) :
  let tileIterator := CreateTileIterator (apiWrapper b) (sectionNum b) in
  ctype_of (eDataType b) = Some T ->
  tileIterator nXBlockOff nYBlockOff = None ->
  Z.of_nat (length pImage) = getNumPixelsPerBlock b ->
  (forall v : spec_float, noDataValue b = Some v ->
     readBlock b tileIterator (nXBlockOff, nYBlockOff) pImage
     = Ok (false, replicate (length pImage) (static_cast T v))
     /\ IReadBlock b nXBlockOff nYBlockOff pImage
        = Ok (CE_None, b, replicate (length pImage) (static_cast T v)))
  /\ (noDataValue b = None ->
      readBlock b tileIterator (nXBlockOff, nYBlockOff) pImage
      = Throw (runtime_error "RasterBand::fillNoDataBlock(): unknown no-data value")
      /\ IReadBlock b nXBlockOff nYBlockOff pImage = Ok (CE_Failure, b, pImage)).
Proof.
  intros tileIterator HT Habsent Hlen. split.
  - intros v Hv.
    assert (Hread : readBlock b tileIterator (nXBlockOff, nYBlockOff) pImage
                    = Ok (false, replicate (length pImage) (static_cast T v))).
    { unfold readBlock, fillNoDataBlock. cbn [fst snd].
      rewrite Habsent, Hv, HT. cbn [bind].
      rewrite <- Hlen, fillWithNoDataValue_all. reflexivity. }
    split; [exact Hread |].
    unfold IReadBlock. fold tileIterator. rewrite Hread. reflexivity.
  - intros Hnone.
    assert (Hread : readBlock b tileIterator (nXBlockOff, nYBlockOff) pImage
                    = Throw (runtime_error
                        "RasterBand::fillNoDataBlock(): unknown no-data value")).
    { unfold readBlock, fillNoDataBlock. cbn [fst snd].
      rewrite Habsent, Hnone. reflexivity. }
    split; [exact Hread |].
    unfold IReadBlock. fold tileIterator. rewrite Hread. reflexivity.
Qed.

(** The sparse 4 x 4 scenario: block (1, 1) of the 16-bit band is filled
    with -9999. *)
Lemma C3_absent_tile_witness :
  ctype_of (eDataType Scenario.band_sparse) = Some int16_t
  /\ CreateTileIterator (apiWrapper Scenario.band_sparse)
       (sectionNum Scenario.band_sparse) 1 1 = None
  /\ Z.of_nat (length Scenario.blank4) = getNumPixelsPerBlock Scenario.band_sparse
  /\ @IReadBlock x86_64 Scenario.band_sparse 1 1 Scenario.blank4
     = Ok (CE_None, Scenario.band_sparse,
           [PxInt (-9999); PxInt (-9999); PxInt (-9999); PxInt (-9999)]).
Proof.
  split; [reflexivity |]. split; [reflexivity |]. split; [reflexivity |].
  apply (proj1 (@C3_absent_tile_is_sentinel_filled_or_fails x86_64
                  Scenario.band_sparse int16_t 1 1 Scenario.blank4
                  eq_refl eq_refl eq_refl)
               (Fp.of_int (-9999)) eq_refl).
Defined.

(** C4 (the code at the failing input): for an encoding outside the seven,
    a configured sentinel and no tile, the sentinel fill writes nothing and
    the read reports success with the image untouched. *)
Theorem C4_sentinel_fill_of_unsupported_encoding_succeeds `{Target}
  (b : RasterBand) (nXBlockOff nYBlockOff : Z) (pImage : buffer) (v : spec_float) :
  ctype_of (eDataType b) = None ->
  noDataValue b = Some v ->
  CreateTileIterator (apiWrapper b) (sectionNum b) nXBlockOff nYBlockOff = None ->
  IReadBlock b nXBlockOff nYBlockOff pImage = Ok (CE_None, b, pImage).
Proof.
  intros HT Hv Habsent.
  unfold IReadBlock, readBlock, fillNoDataBlock. cbn [fst snd].
  rewrite Habsent, Hv, HT. reflexivity.
Qed.

(** The band of complex 16-bit pixels with the sentinel 0 and no tile. *)
Lemma C4_sentinel_fill_of_unsupported_encoding_witness :
  ctype_of (eDataType Scenario.band_cint16) = None
  /\ noDataValue Scenario.band_cint16 = Some (Fp.of_int 0)
  /\ CreateTileIterator (apiWrapper Scenario.band_cint16)
       (sectionNum Scenario.band_cint16) 0 0 = None
  /\ @IReadBlock x86_64 Scenario.band_cint16 0 0 Scenario.blank4
     = Ok (CE_None, Scenario.band_cint16, Scenario.blank4).
Proof.
  split; [reflexivity |]. split; [reflexivity |]. split; [reflexivity |].
  apply (@C4_sentinel_fill_of_unsupported_encoding_succeeds x86_64
           Scenario.band_cint16 0 0 Scenario.blank4 (Fp.of_int 0)
           eq_refl eq_refl eq_refl).
Defined.

(** X5: with a tile present, a band of an encoding outside the seven fails
    the read, whatever the shape of the tile, and the image is left as it
    was. *)
Lemma unsupported_encoding_with_tile_fails `{Target} (b : RasterBand)
  (nXBlockOff nYBlockOff : Z) (pImage : buffer) (tile : Tile) :
  ctype_of (eDataType b) = None ->
  CreateTileIterator (apiWrapper b) (sectionNum b) nXBlockOff nYBlockOff = Some tile ->
  IReadBlock b nXBlockOff nYBlockOff pImage = Ok (CE_Failure, b, pImage).
Proof.
  intros HT Htile.
  unfold IReadBlock, readBlock, fillPartialBlock, readTile. cbn [fst snd].
  rewrite Htile, HT.
  destruct (GetPixelCount tile =? getNumPixelsPerBlock b); [reflexivity |].
  destruct (GetTileRegion tile) as [w h].
  destruct ((w >? nBlockXSize b) || (h >? nBlockYSize b)); reflexivity.
Qed.

(** A band of complex 16-bit pixels over the tile of the scenario. *)
Lemma unsupported_encoding_with_tile_witness :
  @IReadBlock x86_64 Scenario.band_cint16_tiled 0 0 Scenario.blank4
  = Ok (CE_Failure, Scenario.band_cint16_tiled, Scenario.blank4).
Proof.
  apply (@unsupported_encoding_with_tile_fails x86_64 Scenario.band_cint16_tiled
           0 0 Scenario.blank4 Scenario.tile9 eq_refl eq_refl).
Defined.

(** C5 (amended): when the provider returns a tile whose pixel count differs
    from the block's and whose width exceeds the block width or whose height
    exceeds the block height, the read fails with the tile-larger-than-block
    error and the image is left as it was; a tile with exactly the block's
    pixel count is read as a full tile, whatever its region. *)
Theorem C5_partial_tile_larger_than_block_fails `{Target} (b : RasterBand)
  (tile : Tile) (nXBlockOff nYBlockOff : Z) (pImage : buffer) :
  let tileIterator := CreateTileIterator (apiWrapper b) (sectionNum b) in
  tileIterator nXBlockOff nYBlockOff = Some tile ->
  (GetPixelCount tile <> getNumPixelsPerBlock b ->
   fst (GetTileRegion tile) > nBlockXSize b
   \/ snd (GetTileRegion tile) > nBlockYSize b ->
   readBlock b tileIterator (nXBlockOff, nYBlockOff) pImage
   = Throw (logic_error
       "RasterBand::fillPartialBlock(): a tile dimension is larger than the block's!")
   /\ IReadBlock b nXBlockOff nYBlockOff pImage = Ok (CE_Failure, b, pImage))
  /\ (forall T : CType,
        GetPixelCount tile = getNumPixelsPerBlock b ->
        ctype_of (eDataType b) = Some T ->
        readBlock b tileIterator (nXBlockOff, nYBlockOff) pImage
        = Ok (true, write_pixels pImage (GetData tile T (getNumPixelsPerBlock b)))).
Proof.
  intros tileIterator Htile. split.
  - intros Hcount Hlarge.
    assert (Hread : readBlock b tileIterator (nXBlockOff, nYBlockOff) pImage
                    = Throw (logic_error
      "RasterBand::fillPartialBlock(): a tile dimension is larger than the block's!")).
    { unfold readBlock, fillPartialBlock. cbn [fst snd]. rewrite Htile.
      destruct (Z.eqb_spec (GetPixelCount tile) (getNumPixelsPerBlock b)) as [|_];
        [contradiction |].
      destruct (GetTileRegion tile) as [w h]. cbn [fst snd] in Hlarge.
      replace ((w >? nBlockXSize b) || (h >? nBlockYSize b)) with true;
        [reflexivity |].
      symmetry. apply orb_true_iff. destruct Hlarge; [left | right]; lia. }
    split; [exact Hread |].
    unfold IReadBlock. fold tileIterator. rewrite Hread. reflexivity.
  - intros T Hcount HT. unfold readBlock, readTile. cbn [fst snd].
    rewrite Htile, Hcount, Z.eqb_refl, HT. reflexivity.
Qed.

(** A tile of 3 x 1 pixels for the 2 x 2 block. *)
Lemma C5_partial_tile_larger_than_block_witness :
  CreateTileIterator (apiWrapper Scenario.band_3x1)
    (sectionNum Scenario.band_3x1) 0 0
  = Some (Scenario.tile_of 3 1 [PxInt 1; PxInt 2; PxInt 3])
  /\ GetPixelCount (Scenario.tile_of 3 1 [PxInt 1; PxInt 2; PxInt 3])
     <> getNumPixelsPerBlock Scenario.band_3x1
  /\ (fst (GetTileRegion (Scenario.tile_of 3 1 [PxInt 1; PxInt 2; PxInt 3]))
      > nBlockXSize Scenario.band_3x1
      \/ snd (GetTileRegion (Scenario.tile_of 3 1 [PxInt 1; PxInt 2; PxInt 3]))
         > nBlockYSize Scenario.band_3x1)
  /\ @IReadBlock x86_64 Scenario.band_3x1 0 0 Scenario.blank4
     = Ok (CE_Failure, Scenario.band_3x1, Scenario.blank4).
Proof.
  split; [reflexivity |]. split; [vm_compute; discriminate |].
  split; [left; reflexivity |].
  apply (proj1 (@C5_partial_tile_larger_than_block_fails x86_64 Scenario.band_3x1
                  (Scenario.tile_of 3 1 [PxInt 1; PxInt 2; PxInt 3]) 0 0
                  Scenario.blank4 eq_refl));
    [vm_compute; discriminate | left; reflexivity].
Defined.

(** C5 (the claim as stated fails): a tile of region 4 x 1, wider than the
    2 x 2 block, with the block's pixel count of 4 is read as a full tile;
    the read succeeds and the tile's pixels are in the block buffer. *)
Lemma C5_wide_tile_with_block_pixel_count_is_copied :
  fst (GetTileRegion Scenario.tile_4x1) > nBlockXSize Scenario.band_4x1
  /\ @readBlock x86_64 Scenario.band_4x1
       (CreateTileIterator (apiWrapper Scenario.band_4x1)
          (sectionNum Scenario.band_4x1))
       (0, 0) Scenario.blank4
     = Ok (true, [PxInt 1; PxInt 2; PxInt 3; PxInt 4])
  /\ @IReadBlock x86_64 Scenario.band_4x1 0 0 Scenario.blank4
     = Ok (CE_None,
           @computeRowSegmentsInsidePredictionRadius x86_64 Scenario.band_4x1,
           [PxInt 1; PxInt 2; PxInt 3; PxInt 4]).
Proof. split; [reflexivity |]. split; vm_compute; reflexivity. Qed.

(** * The post-processor *)

Lemma store_same (d : buffer) (i : Z) (v : pixel) :
  load d i = Some v -> store d i v = d.
Proof.
  unfold load, store. destruct (i <? 0); [reflexivity|].
  intros Hv. apply list_insert_id. exact Hv.
Qed.

Lemma clamp_at_modify (tnd : option pixel) (lo hi : pixel) (base x : Z) (d : buffer) :
  clamp_at tnd lo hi base x d = modify_at (base + x) (clamp_val tnd lo hi) d.
Proof.
  unfold clamp_at, modify_at, clamp_val.
  destruct (load d (base + x)) as [value|] eqn:Hv; [|reflexivity].
  destruct (match tnd with Some nd => px_eqb value nd | None => false end);
    [symmetry; apply store_same; exact Hv |].
  destruct (px_ltb value lo); [reflexivity |].
  destruct (px_ltb hi value); [reflexivity |].
  symmetry; apply store_same; exact Hv.
Qed.

Lemma fill_at_modify (nd : pixel) (base x : Z) (d : buffer) :
  fill_at (Some nd) base x d = modify_at (base + x) (fun _ => nd) d.
Proof. apply store_modify_at. Qed.

(** A loop of [modify_at] bodies in closed form. *)
Lemma for_range_modify (f : Z -> pixel -> pixel) (base a b : Z) (d : buffer) :
  0 <= base + a ->
  for_range a b (fun x t => modify_at (base + x) (f x) t) d
  = imap (fun j v => if decide (base + a <= Z.of_nat j < base + b)
                     then f (Z.of_nat j - base) v else v) d.
Proof.
  intros Ha. apply list_eq. intros j. unfold for_range.
  rewrite for_loop_modify_lookup by exact Ha. rewrite list_lookup_imap.
  destruct (decide (_ <= _ < _)%nat) as [Hj|Hj];
    destruct (decide (_ <= _ < _)) as [Hj'|Hj']; try lia; try reflexivity.
  destruct (d !! j); reflexivity.
Qed.

Lemma imap_imap_px (f g : nat -> pixel -> pixel) (d : buffer) :
  imap f (imap g d) = imap (fun j v => f j (g j v)) d.
Proof.
  apply list_eq. intros j. rewrite !list_lookup_imap.
  destruct (d !! j); reflexivity.
Qed.

Lemma for_range_fill_at (nd : pixel) (base a b : Z) (d : buffer) :
  0 <= base + a ->
  for_range a b (fill_at (Some nd) base) d
  = imap (fun j v => if decide (base + a <= Z.of_nat j < base + b) then nd else v) d.
Proof.
  intros Ha. unfold for_range.
  rewrite (for_loop_ext _ (fun x t => modify_at (base + x) ((fun _ _ => nd) x) t))
    by (intros; apply fill_at_modify).
  apply (for_range_modify (fun _ _ => nd)). exact Ha.
Qed.

Lemma for_range_clamp_at (tnd : option pixel) (lo hi : pixel) (base a b : Z)
  (d : buffer) :
  0 <= base + a ->
  for_range a b (clamp_at tnd lo hi base) d
  = imap (fun j v => if decide (base + a <= Z.of_nat j < base + b)
                     then clamp_val tnd lo hi v else v) d.
Proof.
  intros Ha. unfold for_range.
  rewrite (for_loop_ext _
             (fun x t => modify_at (base + x) ((fun _ => clamp_val tnd lo hi) x) t))
    by (intros; apply clamp_at_modify).
  apply (for_range_modify (fun _ => clamp_val tnd lo hi)). exact Ha.
Qed.

Section Row.
Context `{Target}.

Lemma postProcessBlockRow_imap (T : CType) (d : buffer) (base W : Z)
  (seg : RowSegment) (nd : option spec_float) (minValue maxValue : spec_float) :
  0 <= base -> 0 <= seg_start seg <= W -> 0 <= seg_end seg <= W ->
  postProcessBlockRow T d base W seg nd minValue maxValue
  = imap (fun j v =>
            if decide (base <= Z.of_nat j < base + W)
            then row_pixel (option_map (static_cast T) nd)
                   (static_cast T minValue) (static_cast T maxValue) seg
                   (Z.of_nat j - base) v
            else v) d.
Proof.
  intros Hb Hs He. unfold postProcessBlockRow, row_loops.
  destruct nd as [v0|]; cbn [has_value option_map].
  - rewrite for_range_fill_at, for_range_clamp_at, for_range_fill_at by lia.
    rewrite !imap_imap_px. apply imap_ext. intros j v _.
    unfold row_pixel.
    destruct (Z.ltb_spec (Z.of_nat j - base) (seg_start seg));
      destruct (Z.ltb_spec (Z.of_nat j - base) (seg_end seg));
      repeat (destruct (decide _)); try lia; reflexivity.
  - rewrite for_range_clamp_at by lia.
    apply imap_ext. intros j v _. unfold row_pixel.
    destruct (Z.leb_spec (seg_start seg) (Z.of_nat j - base));
      destruct (Z.ltb_spec (Z.of_nat j - base) (seg_end seg)); cbn [andb];
      repeat (destruct (decide _)); try lia; reflexivity.
Qed.
End Row.

Lemma for_loopM_ok {S : Type} (body : Z -> S -> outcome S) (body' : Z -> S -> S)
  (n : nat) (a : Z) (s : S) :
  (forall x t, a <= x < a + Z.of_nat n -> body x t = Ok (body' x t)) ->
  for_loopM n a body s = Ok (for_loop n a body' s).
Proof.
  revert a s. induction n as [|n IH]; intros a s Hbody; cbn [for_loopM for_loop].
  - reflexivity.
  - rewrite Hbody by lia. cbn [bind]. apply IH. intros x t Hx. apply Hbody. lia.
Qed.

Lemma imap_same (d : buffer) : imap (fun _ v => v) d = d.
Proof.
  apply list_eq. intros j. rewrite list_lookup_imap. destruct (d !! j); reflexivity.
Qed.

(** Rows of width [W] processed one after the other: row [y] rewrites the
    pixels [y * W, y * W + W) by [R y]. *)
Lemma for_loop_rows (R : Z -> Z -> pixel -> pixel) (W : Z) (n : nat) (a : Z)
  (d : buffer) :
  0 < W -> 0 <= a ->
  for_loop n a
    (fun y t => imap (fun j v => if decide (y * W <= Z.of_nat j < y * W + W)
                                 then R y (Z.of_nat j - y * W) v else v) t) d
  = imap (fun j v => if decide (a * W <= Z.of_nat j < (a + Z.of_nat n) * W)
                     then R (Z.of_nat j / W) (Z.of_nat j mod W) v else v) d.
Proof.
  intros HW. revert a d. induction n as [|n IH]; intros a d Ha; cbn [for_loop].
  - rewrite <- (imap_same d) at 1. apply imap_ext. intros j v _.
    destruct (decide _); [lia | reflexivity].
  - rewrite IH by lia. rewrite imap_imap_px. apply imap_ext. intros j v _.
    destruct (decide (a * W <= Z.of_nat j < a * W + W)) as [Hin|Hout].
    + destruct (decide ((a + 1) * W <= _ < _)) as [Hj|_]; [lia|].
      destruct (decide (a * W <= _ < _)) as [_|Hj]; [|lia].
      assert (Hq : Z.of_nat j / W = a).
      { symmetry. apply (Z.div_unique_pos _ _ _ (Z.of_nat j - a * W)); lia. }
      assert (Hm : Z.of_nat j mod W = Z.of_nat j - a * W).
      { symmetry. apply (Z.mod_unique_pos _ _ a); lia. }
      rewrite Hq, Hm. reflexivity.
    + destruct (decide ((a + 1) * W <= _ < _)) as [Hj|Hj];
        destruct (decide (a * W <= _ < _)) as [Hj'|Hj']; try lia; reflexivity.
Qed.

Lemma for_loop_ext_in {S : Type} (f g : Z -> S -> S) (n : nat) (a : Z) (s : S) :
  (forall x t, a <= x < a + Z.of_nat n -> f x t = g x t) ->
  for_loop n a f s = for_loop n a g s.
Proof.
  revert a s. induction n as [|n IH]; intros a s Hfg; cbn [for_loop]; [reflexivity|].
  rewrite Hfg by lia. apply IH. intros x t Hx. apply Hfg. lia.
Qed.

Section Block.
Context `{Target}.

Lemma withRowSegments_fields (b0 : RasterBand) :
  let b := withRowSegments b0 in
  eDataType b = eDataType b0 /\ sectionNum b = sectionNum b0
  /\ noDataValue b = noDataValue b0
  /\ nBlockXSize b = nBlockXSize b0 /\ nBlockYSize b = nBlockYSize b0
  /\ nRasterYSize b = nRasterYSize b0 /\ apiWrapper b = apiWrapper b0.
Proof.
  unfold withRowSegments.
  destruct (rowSegmentsInsidePredictionRadius b0); cbn; repeat split; reflexivity.
Qed.

Lemma vector_at_inside (b : RasterBand) (i : Z) :
  0 <= i < Z.of_nat (length (rowSegmentsInsidePredictionRadius b)) ->
  vector_at (rowSegmentsInsidePredictionRadius b) i = Ok (rowSegmentAt b i).
Proof.
  intros Hi. unfold vector_at, rowSegmentAt.
  destruct (Z.ltb_spec i 0); [lia |].
  destruct (lookup_lt_is_Some_2 (rowSegmentsInsidePredictionRadius b) (Z.to_nat i)
              ltac:(lia)) as [s ->].
  reflexivity.
Qed.

Lemma clipToBlock_bounds (b : RasterBand) (blockIndex : Z * Z) (rs : RowSegment) :
  0 < nBlockXSize b ->
  0 <= seg_start (clipToBlock b blockIndex rs) <= nBlockXSize b
  /\ 0 <= seg_end (clipToBlock b blockIndex rs) <= nBlockXSize b.
Proof. intros HW. unfold clipToBlock. cbn [seg_start seg_end]. lia. Qed.

(** The post-processor of a block whose rows all lie in the cache returns,
    and its buffer is the image of the one passed in under [block_pixel]. *)
Lemma postProcessBlock_imap (b0 : RasterBand) (blockIndex : Z * Z) (T : CType)
  (data : buffer) :
  let b := withRowSegments b0 in
  ctype_of (eDataType b0) = Some T ->
  0 < nBlockXSize b0 -> 0 < nBlockYSize b0 -> 0 <= snd blockIndex ->
  (snd blockIndex + 1) * nBlockYSize b0
  <= Z.of_nat (length (rowSegmentsInsidePredictionRadius b)) ->
  postProcessBlock b0 blockIndex data = Ok (b, imap (block_pixel b blockIndex T) data).
Proof.
  intros b HT HW HH Hy Hin.
  destruct (withRowSegments_fields b0) as (HeT & Hsec & Hnd & HbW & HbH & _).
  fold b in HeT, Hsec, Hnd, HbW, HbH.
  unfold postProcessBlock. fold b. rewrite HeT, HT.
  destruct (snd (getValidValuesRange (sectionNum b) (Fp.nan, Fp.nan)))
    as [minValue maxValue] eqn:Hrange.
  unfold for_rangeM.
  rewrite (for_loopM_ok _
             (fun y d => postProcessBlockRow T d (y * nBlockXSize b) (nBlockXSize b)
                           (clipToBlock b blockIndex
                              (rowSegmentAt b (snd blockIndex * nBlockYSize b + y)))
                           (noDataValue b) minValue maxValue)).
  2:{ intros y d Hyr. unfold computeBlockRowSegment.
      rewrite vector_at_inside by nia. reflexivity. }
  cbn [bind]. f_equal. f_equal.
  rewrite (for_loop_ext_in _
             (fun y t => imap (fun j v =>
                if decide (y * nBlockXSize b <= Z.of_nat j < y * nBlockXSize b + nBlockXSize b)
                then (fun y x v => row_pixel (option_map (static_cast T) (noDataValue b))
                        (static_cast T minValue) (static_cast T maxValue)
                        (clipToBlock b blockIndex
                           (rowSegmentAt b (snd blockIndex * nBlockYSize b + y))) x v)
                       y (Z.of_nat j - y * nBlockXSize b) v
                else v) t)).
  2:{ intros y t Hyr.
      destruct (clipToBlock_bounds b blockIndex
                  (rowSegmentAt b (snd blockIndex * nBlockYSize b + y))
                  ltac:(lia)) as [Hs He].
      apply postProcessBlockRow_imap; [nia | exact Hs | exact He]. }
  rewrite (for_loop_rows
             (fun y x v => row_pixel (option_map (static_cast T) (noDataValue b))
                (static_cast T minValue) (static_cast T maxValue)
                (clipToBlock b blockIndex
                   (rowSegmentAt b (snd blockIndex * nBlockYSize b + y))) x v)
             (nBlockXSize b)) by lia.
  apply imap_ext. intros j v _. unfold block_pixel, typedMinValue, typedMaxValue.
  rewrite Hrange. cbn [fst snd].
  destruct (decide (0 * _ <= _ < _)) as [Hj|Hj];
    destruct (decide (0 <= _ < _)) as [Hj'|Hj']; try lia; reflexivity.
Qed.
End Block.

Lemma px_ltb_irrefl (v : pixel) : px_ltb v v = false.
Proof. destruct v; cbn; [apply Z.ltb_irrefl | apply SFltb_irrefl]. Qed.

(** Clamping twice is clamping once, provided the upper bound is not below
    the lower one. *)
Lemma clamp_val_idempotent (tnd : option pixel) (lo hi v : pixel) :
  px_ltb hi lo = false ->
  clamp_val tnd lo hi (clamp_val tnd lo hi v) = clamp_val tnd lo hi v.
Proof.
  intros Hord. unfold clamp_val.
  destruct (match tnd with Some nd => px_eqb v nd | None => false end) eqn:Hv.
  - rewrite Hv. reflexivity.
  - destruct (px_ltb v lo) eqn:Hlo.
    + destruct (match tnd with Some nd => px_eqb lo nd | None => false end);
        [reflexivity |].
      rewrite px_ltb_irrefl, Hord. reflexivity.
    + destruct (px_ltb hi v) eqn:Hhi.
      * destruct (match tnd with Some nd => px_eqb hi nd | None => false end);
          [reflexivity |].
        rewrite Hord, px_ltb_irrefl. reflexivity.
      * rewrite Hv, Hlo, Hhi. reflexivity.
Qed.

Lemma row_pixel_idempotent (tnd : option pixel) (lo hi : pixel) (seg : RowSegment)
  (x : Z) (v : pixel) :
  px_ltb hi lo = false ->
  row_pixel tnd lo hi seg x (row_pixel tnd lo hi seg x v) = row_pixel tnd lo hi seg x v.
Proof.
  intros Hord. unfold row_pixel. destruct tnd as [nd|].
  - destruct (x <? seg_start seg); [reflexivity |].
    destruct (x <? seg_end seg); [apply clamp_val_idempotent; exact Hord | reflexivity].
  - destruct ((seg_start seg <=? x) && (x <? seg_end seg));
      [apply clamp_val_idempotent; exact Hord | reflexivity].
Qed.

(** Without a valid range both bounds are NaN. *)
Lemma getValidValuesRange_none (s : Z) (mm : spec_float * spec_float) :
  s <> 0 -> s <> 1 -> getValidValuesRange s mm = (false, mm).
Proof.
  intros H0 H1. unfold getValidValuesRange.
  destruct s as [| [p | p |] | p]; try reflexivity; congruence.
Qed.

(** A floating pixel is never clamped against NaN bounds. *)
Lemma clamp_val_nan (tnd : option pixel) (v : pixel) :
  clamp_val tnd (PxFlt S754_nan) (PxFlt S754_nan) v = v.
Proof.
  unfold clamp_val.
  destruct (match tnd with Some nd => px_eqb v nd | None => false end);
    [reflexivity |].
  destruct v as [z | f]; cbn; [reflexivity |].
  unfold SFltb. destruct f; reflexivity.
Qed.

(** An integer pixel clamped between two equal bounds is the bound, unless
    it is the sentinel. *)
Lemma clamp_val_equal_bounds (tnd : option pixel) (c v : Z) :
  match tnd with Some nd => px_eqb (PxInt v) nd | None => false end = false ->
  clamp_val tnd (PxInt c) (PxInt c) (PxInt v) = PxInt c.
Proof.
  intros Hv. unfold clamp_val. rewrite Hv. cbn [px_ltb].
  destruct (Z.ltb_spec v c); [reflexivity |].
  destruct (Z.ltb_spec c v); [reflexivity |].
  f_equal. lia.
Qed.

Section Idempotence.
Context `{Target}.

Lemma withRowSegments_ready (b0 : RasterBand) :
  rowSegmentsInsidePredictionRadius (withRowSegments b0) <> [] ->
  withRowSegments (withRowSegments b0) = withRowSegments b0.
Proof.
  intros Hne. unfold withRowSegments at 1.
  destruct (rowSegmentsInsidePredictionRadius (withRowSegments b0));
    [congruence | reflexivity].
Qed.

(** Post-processing is idempotent whenever the converted upper bound is not
    below the converted lower bound. *)
Theorem postProcessBlock_idempotent (b0 : RasterBand) (blockIndex : Z * Z)
  (T : CType) (data : buffer) :
  let b := withRowSegments b0 in
  ctype_of (eDataType b0) = Some T ->
  0 < nBlockXSize b0 -> 0 < nBlockYSize b0 -> 0 <= snd blockIndex ->
  (snd blockIndex + 1) * nBlockYSize b0
  <= Z.of_nat (length (rowSegmentsInsidePredictionRadius b)) ->
  px_ltb (typedMaxValue b T) (typedMinValue b T) = false ->
  exists data' : buffer,
    postProcessBlock b0 blockIndex data = Ok (b, data')
    /\ postProcessBlock b blockIndex data' = Ok (b, data').
Proof.
  intros b HT HW HH Hy Hin Hord.
  destruct (withRowSegments_fields b0) as (HeT & Hsec & Hnd & HbW & HbH & _).
  fold b in HeT, Hsec, Hnd, HbW, HbH.
  assert (Hready : withRowSegments b = b).
  { apply withRowSegments_ready. fold b. intros Hnil. rewrite Hnil in Hin.
    cbn in Hin. nia. }
  exists (imap (block_pixel b blockIndex T) data). split.
  - apply postProcessBlock_imap; assumption.
  - rewrite (postProcessBlock_imap b blockIndex T); rewrite ?Hready;
      try congruence; try lia.
    f_equal. f_equal. rewrite imap_imap_px. apply imap_ext. intros j v _.
    unfold block_pixel. destruct (decide _); [|reflexivity].
    apply row_pixel_idempotent. exact Hord.
Qed.
End Idempotence.

Section WithoutRange.
Context `{Target}.

(** The converted bounds are ordered for every section and element type but
    section 1 with an unsigned pixel, where -18000 has no representation. *)
Lemma bounds_ordered (b : RasterBand) (T : CType) :
  (sectionNum b = 1 ->
   T = int16_t \/ T = int32_t \/ T = float_t \/ T = double_t) ->
  px_ltb (typedMaxValue b T) (typedMinValue b T) = false.
Proof.
  intros Hsigned. unfold typedMaxValue, typedMinValue.
  destruct (Z.eq_dec (sectionNum b) 0) as [-> | H0].
  { destruct T; vm_compute; reflexivity. }
  destruct (Z.eq_dec (sectionNum b) 1) as [H1 | H1].
  { destruct (Hsigned H1) as [-> | [-> | [-> | ->]]]; rewrite H1;
      vm_compute; reflexivity. }
  rewrite getValidValuesRange_none by assumption. cbn [fst snd].
  apply px_ltb_irrefl.
Qed.

(** X1: on a band of a floating encoding whose section has no valid range,
    post-processing a block whose rows lie in the cache leaves every pixel
    inside the block-local coverage segment as it was. *)
Theorem float_pixels_without_range_are_unchanged (b0 : RasterBand)
  (blockIndex : Z * Z) (T : CType) (data : buffer) :
  let b := withRowSegments b0 in
  ctype_of (eDataType b0) = Some T ->
  T = float_t \/ T = double_t ->
  sectionNum b0 <> 0 -> sectionNum b0 <> 1 ->
  0 < nBlockXSize b0 -> 0 < nBlockYSize b0 -> 0 <= snd blockIndex ->
  (snd blockIndex + 1) * nBlockYSize b0
  <= Z.of_nat (length (rowSegmentsInsidePredictionRadius b)) ->
  exists data' : buffer,
    postProcessBlock b0 blockIndex data = Ok (b, data')
    /\ forall j : nat,
         0 <= Z.of_nat j < nBlockYSize b * nBlockXSize b ->
         let seg := clipToBlock b blockIndex
                      (rowSegmentAt b (snd blockIndex * nBlockYSize b
                                       + Z.of_nat j / nBlockXSize b)) in
         seg_start seg <= Z.of_nat j mod nBlockXSize b < seg_end seg ->
         data' !! j = data !! j.
Proof.
  intros b HT Hfloat H0 H1 HW HH Hy Hin.
  destruct (withRowSegments_fields b0) as (HeT & Hsec & Hnd & HbW & HbH & _).
  fold b in HeT, Hsec, Hnd, HbW, HbH.
  exists (imap (block_pixel b blockIndex T) data).
  split; [apply postProcessBlock_imap; assumption |].
  intros j Hj seg Hseg. rewrite list_lookup_imap.
  destruct (data !! j) as [v|]; [|reflexivity]. cbn [fmap option_fmap option_map].
  f_equal. unfold block_pixel. destruct (decide _) as [_|Hn]; [|contradiction].
  fold seg. unfold typedMinValue, typedMaxValue.
  rewrite Hsec, getValidValuesRange_none by assumption. cbn [fst snd].
  assert (Hnan : static_cast T Fp.nan = PxFlt S754_nan)
    by (destruct Hfloat as [-> | ->]; reflexivity).
  rewrite Hnan. unfold row_pixel.
  destruct (option_map (static_cast T) (noDataValue b)) as [nd|].
  - destruct (Z.ltb_spec (Z.of_nat j mod nBlockXSize b) (seg_start seg)); [lia |].
    destruct (Z.ltb_spec (Z.of_nat j mod nBlockXSize b) (seg_end seg)); [|lia].
    apply clamp_val_nan.
  - destruct (Z.leb_spec (seg_start seg) (Z.of_nat j mod nBlockXSize b)); [|lia].
    destruct (Z.ltb_spec (Z.of_nat j mod nBlockXSize b) (seg_end seg)); [|lia].
    apply clamp_val_nan.
Qed.

(** X2: on a band of an integer encoding whose section has no valid range,
    post-processing replaces every pixel inside the block-local coverage
    segment that is not the sentinel by the conversion of NaN to the pixel
    type, whatever the target makes of that conversion. *)
Theorem integer_pixels_without_range_are_overwritten (b0 : RasterBand)
  (blockIndex : Z * Z) (T : CType) (k : IntKind) (data : buffer) :
  let b := withRowSegments b0 in
  ctype_of (eDataType b0) = Some T ->
  int_kind T = Some k ->
  sectionNum b0 <> 0 -> sectionNum b0 <> 1 ->
  0 < nBlockXSize b0 -> 0 < nBlockYSize b0 -> 0 <= snd blockIndex ->
  (snd blockIndex + 1) * nBlockYSize b0
  <= Z.of_nat (length (rowSegmentsInsidePredictionRadius b)) ->
  exists data' : buffer,
    postProcessBlock b0 blockIndex data = Ok (b, data')
    /\ forall (j : nat) (v : Z),
         0 <= Z.of_nat j < nBlockYSize b * nBlockXSize b ->
         let seg := clipToBlock b blockIndex
                      (rowSegmentAt b (snd blockIndex * nBlockYSize b
                                       + Z.of_nat j / nBlockXSize b)) in
         seg_start seg <= Z.of_nat j mod nBlockXSize b < seg_end seg ->
         data !! j = Some (PxInt v) ->
         (forall nd : spec_float, noDataValue b0 = Some nd -> v <> to_int k nd) ->
         data' !! j = Some (PxInt (to_int k Fp.nan)).
Proof.
  intros b HT Hk H0 H1 HW HH Hy Hin.
  destruct (withRowSegments_fields b0) as (HeT & Hsec & Hnd & HbW & HbH & _).
  fold b in HeT, Hsec, Hnd, HbW, HbH.
  exists (imap (block_pixel b blockIndex T) data).
  split; [apply postProcessBlock_imap; assumption |].
  intros j v Hj seg Hseg Hv Hnot. rewrite list_lookup_imap, Hv.
  cbn [fmap option_fmap option_map]. f_equal.
  unfold block_pixel. destruct (decide _) as [_|Hn]; [|contradiction].
  fold seg. unfold typedMinValue, typedMaxValue.
  rewrite Hsec, getValidValuesRange_none by assumption. cbn [fst snd].
  assert (Hcast : forall d, static_cast T d = PxInt (to_int k d))
    by (intros d; unfold static_cast; rewrite Hk; reflexivity).
  rewrite !Hcast, Hnd. unfold row_pixel.
  destruct (noDataValue b0) as [nd|] eqn:Hnd0; cbn [option_map].
  - destruct (Z.ltb_spec (Z.of_nat j mod nBlockXSize b) (seg_start seg)); [lia |].
    destruct (Z.ltb_spec (Z.of_nat j mod nBlockXSize b) (seg_end seg)); [|lia].
    apply clamp_val_equal_bounds. rewrite Hcast. cbn [px_eqb].
    apply Z.eqb_neq. apply Hnot. reflexivity.
  - destruct (Z.leb_spec (seg_start seg) (Z.of_nat j mod nBlockXSize b)); [|lia].
    destruct (Z.ltb_spec (Z.of_nat j mod nBlockXSize b) (seg_end seg)); [|lia].
    apply clamp_val_equal_bounds. reflexivity.
Qed.
End WithoutRange.

(** X3: post-processing a block whose rows lie in the cache is idempotent
    for every section and encoding whose range bounds fit the pixel type:
    every encoding without a range or with section 0, the signed and the
    floating encodings with section 1. *)
Theorem postProcessBlock_idempotent_when_bounds_fit `{Target} (b0 : RasterBand)
  (blockIndex : Z * Z) (T : CType) (data : buffer) :
  ctype_of (eDataType b0) = Some T ->
  (sectionNum b0 = 1 ->
   T = int16_t \/ T = int32_t \/ T = float_t \/ T = double_t) ->
  0 < nBlockXSize b0 -> 0 < nBlockYSize b0 -> 0 <= snd blockIndex ->
  (snd blockIndex + 1) * nBlockYSize b0
  <= Z.of_nat (length (rowSegmentsInsidePredictionRadius (withRowSegments b0))) ->
  exists data' : buffer,
    postProcessBlock b0 blockIndex data = Ok (withRowSegments b0, data')
    /\ postProcessBlock (withRowSegments b0) blockIndex data'
       = Ok (withRowSegments b0, data').
Proof.
  intros HT Hfit HW HH Hy Hin.
  apply (postProcessBlock_idempotent b0 blockIndex T data); try assumption.
  apply bounds_ordered.
  destruct (withRowSegments_fields b0) as (_ & Hsec & _).
  rewrite Hsec. exact Hfit.
Qed.

(** The block of the 4 x 4 scenario. *)
Lemma postProcessBlock_idempotent_witness :
  exists data' : buffer,
    @postProcessBlock x86_64 Scenario.band9 (0, 0)
      [PxInt 300; PxInt (-50); PxInt 1000; PxInt 5]
    = Ok (@withRowSegments x86_64 Scenario.band9, data')
    /\ @postProcessBlock x86_64 (@withRowSegments x86_64 Scenario.band9) (0, 0) data'
       = Ok (@withRowSegments x86_64 Scenario.band9, data').
Proof.
  apply (@postProcessBlock_idempotent_when_bounds_fit x86_64 Scenario.band9 (0, 0)
           int16_t [PxInt 300; PxInt (-50); PxInt 1000; PxInt 5]
           eq_refl (fun _ => or_introl eq_refl) eq_refl eq_refl);
    vm_compute; discriminate.
Defined.

(** X4: a block whose rows all lie inside the raster is post-processed with
    a defined outcome: on a band whose cache is still empty the call
    computes the cache and returns the image of the buffer under
    [block_pixel]. *)
Theorem postProcessBlock_inside_raster_returns `{Target} (b0 : RasterBand)
  (blockIndex : Z * Z) (T : CType) (data : buffer) :
  rowSegmentsInsidePredictionRadius b0 = [] ->
  ctype_of (eDataType b0) = Some T ->
  0 < nBlockXSize b0 -> 0 < nBlockYSize b0 -> 0 <= snd blockIndex ->
  (snd blockIndex + 1) * nBlockYSize b0 <= nRasterYSize b0 ->
  postProcessBlock b0 blockIndex data
  = Ok (computeRowSegmentsInsidePredictionRadius b0,
        imap (block_pixel (computeRowSegmentsInsidePredictionRadius b0) blockIndex T)
          data).
Proof.
  intros Hnil HT HW HH Hy Hin.
  assert (Hw : withRowSegments b0 = computeRowSegmentsInsidePredictionRadius b0)
    by (unfold withRowSegments; rewrite Hnil; reflexivity).
  rewrite <- Hw. apply postProcessBlock_imap; try assumption.
  rewrite Hw, computeRowSegments_length. nia.
Qed.

(** The middle block row of the raster of height 5. *)
Lemma postProcessBlock_inside_raster_witness :
  @postProcessBlock x86_64 Scenario.band_h5 (0, 1) [PxInt 7; PxInt 8]
  = Ok (@computeRowSegmentsInsidePredictionRadius x86_64 Scenario.band_h5,
        imap (@block_pixel x86_64
                (@computeRowSegmentsInsidePredictionRadius x86_64 Scenario.band_h5)
                (0, 1) int16_t)
          [PxInt 7; PxInt 8]).
Proof.
  apply (@postProcessBlock_inside_raster_returns x86_64 Scenario.band_h5 (0, 1)
           int16_t [PxInt 7; PxInt 8] eq_refl eq_refl eq_refl eq_refl);
    vm_compute; discriminate.
Defined.

(** A 32-bit floating pixel of section 2 under the transmitter. *)
Lemma float_pixels_without_range_witness :
  exists data' : buffer,
    @postProcessBlock x86_64
      (Scenario.band_1x1 2 GDT_Float32 Scenario.five) (0, 0)
      [Scenario.five]
    = Ok (@withRowSegments x86_64
            (Scenario.band_1x1 2 GDT_Float32 Scenario.five),
          data')
    /\ data' !! 0%nat = Some Scenario.five.
Proof.
  destruct (@float_pixels_without_range_are_unchanged x86_64
              (Scenario.band_1x1 2 GDT_Float32 Scenario.five)
              (0, 0) float_t [Scenario.five]
              eq_refl (or_introl eq_refl)
              ltac:(vm_compute; discriminate) ltac:(vm_compute; discriminate)
              eq_refl eq_refl
              ltac:(vm_compute; discriminate) ltac:(vm_compute; discriminate))
    as (data' & Hpost & Hsame).
  exists data'. split; [exact Hpost |].
  rewrite (Hsame 0%nat); [reflexivity | | ]; vm_compute; split; congruence.
Defined.

(** An 8-bit pixel of section 2 under the transmitter. *)
Lemma integer_pixels_without_range_witness :
  exists data' : buffer,
    @postProcessBlock x86_64 (Scenario.band_1x1 2 GDT_Byte (PxInt 5)) (0, 0) [PxInt 5]
    = Ok (@withRowSegments x86_64 (Scenario.band_1x1 2 GDT_Byte (PxInt 5)), data')
    /\ data' !! 0%nat = Some (PxInt 0).
Proof.
  destruct (@integer_pixels_without_range_are_overwritten x86_64
              (Scenario.band_1x1 2 GDT_Byte (PxInt 5)) (0, 0) uint8_t U8 [PxInt 5]
              eq_refl eq_refl
              ltac:(vm_compute; discriminate) ltac:(vm_compute; discriminate)
              eq_refl eq_refl
              ltac:(vm_compute; discriminate) ltac:(vm_compute; discriminate))
    as (data' & Hpost & Hover).
  exists data'. split; [exact Hpost |].
  rewrite (Hover 0%nat 5); [reflexivity | | | reflexivity | ].
  - vm_compute; split; congruence.
  - vm_compute; split; congruence.
  - intros nd Hnd. injection Hnd as <-. vm_compute. discriminate.
Defined.

(** C9: in the scenario of the spec (section 0 with range [0, 200], 16-bit
    signed pixels, sentinel -9999, the 2 x 2 block (0, 0) with tile values
    300, -50, 1000, 5 and the block-local segment [0, 2) on both rows) the
    read returns 200, 0, 200, 5: every value is clamped into the range and
    no pixel becomes the sentinel. *)
Theorem C9_scenario_clamps_to_200_0_200_5 `{Target} :
  getValidValuesRange (sectionNum Scenario.band9) (Fp.nan, Fp.nan)
  = (true, (Fp.of_int 0, Fp.of_int 200))
  /\ noDataValue Scenario.band9 = Some (Fp.of_int (-9999))
  /\ computeBlockRowSegment
       (computeRowSegmentsInsidePredictionRadius Scenario.band9) (0, 0) 0
     = Ok {| seg_start := 0; seg_end := 2 |}
  /\ computeBlockRowSegment
       (computeRowSegmentsInsidePredictionRadius Scenario.band9) (0, 0) 1
     = Ok {| seg_start := 0; seg_end := 2 |}
  /\ readBlock Scenario.band9
       (CreateTileIterator (apiWrapper Scenario.band9) (sectionNum Scenario.band9))
       (0, 0) Scenario.blank4
     = Ok (true, [PxInt 300; PxInt (-50); PxInt 1000; PxInt 5])
  /\ postProcessBlock Scenario.band9 (0, 0)
       [PxInt 300; PxInt (-50); PxInt 1000; PxInt 5]
     = Ok (computeRowSegmentsInsidePredictionRadius Scenario.band9,
           [PxInt 200; PxInt 0; PxInt 200; PxInt 5])
  /\ IReadBlock Scenario.band9 0 0 Scenario.blank4
     = Ok (CE_None, computeRowSegmentsInsidePredictionRadius Scenario.band9,
           [PxInt 200; PxInt 0; PxInt 200; PxInt 5]).
Proof. repeat split; vm_compute; reflexivity. Qed.

(** A loop stops without a defined outcome at the first index whose body
    has none. *)
Lemma for_loopM_undefined {S : Type} (body : Z -> S -> outcome S) (n : nat)
  (a x0 : Z) (s : S) :
  a <= x0 < a + Z.of_nat n ->
  (forall x t, a <= x < x0 -> exists t', body x t = Ok t') ->
  (forall t, body x0 t = Undefined) ->
  for_loopM n a body s = Undefined.
Proof.
  revert a s. induction n as [|n IH]; intros a s Hx Hbefore Hat; [lia |].
  cbn [for_loopM]. destruct (Z.eq_dec a x0) as [-> | Hne].
  - rewrite Hat. reflexivity.
  - destruct (Hbefore a s ltac:(lia)) as [t' ->]. cbn [bind].
    apply IH; [lia | | exact Hat].
    intros x t Hxr. apply Hbefore. lia.
Qed.

Lemma vector_at_end (b : RasterBand) :
  vector_at (rowSegmentsInsidePredictionRadius b)
    (Z.of_nat (length (rowSegmentsInsidePredictionRadius b))) = Undefined.
Proof.
  unfold vector_at.
  destruct (Z.ltb_spec (Z.of_nat (length (rowSegmentsInsidePredictionRadius b))) 0);
    [reflexivity |].
  rewrite Nat2Z.id, lookup_ge_None_2 by lia. reflexivity.
Qed.

(** C6 (the code where the claim fails): for a band whose cache is still
    empty and an in-range block row that the raster height cuts
    (blockRow * blockHeight < rasterHeight < (blockRow + 1) * blockHeight),
    the cache has one entry per raster row and the post-processor reads it
    at index rasterHeight, one past its end: the call has no defined
    outcome. *)
Theorem C6_partial_bottom_block_reads_past_the_cache `{Target} (b0 : RasterBand)
  (blockIndex : Z * Z) (T : CType) (data : buffer) :
  rowSegmentsInsidePredictionRadius b0 = [] ->
  ctype_of (eDataType b0) = Some T ->
  0 <= snd blockIndex < nBlocksPerColumn b0 ->
  snd blockIndex * nBlockYSize b0 < nRasterYSize b0 ->
  nRasterYSize b0 < (snd blockIndex + 1) * nBlockYSize b0 ->
  length (rowSegmentsInsidePredictionRadius (computeRowSegmentsInsidePredictionRadius b0))
  = Z.to_nat (nRasterYSize b0)
  /\ computeBlockRowSegment (computeRowSegmentsInsidePredictionRadius b0) blockIndex
       (nRasterYSize b0 - snd blockIndex * nBlockYSize b0) = Undefined
  /\ postProcessBlock b0 blockIndex data = Undefined.
Proof.
  intros Hnil HT Hrow Hlo Hhi.
  set (b := computeRowSegmentsInsidePredictionRadius b0).
  assert (Hlen : length (rowSegmentsInsidePredictionRadius b) = Z.to_nat (nRasterYSize b0))
    by apply computeRowSegments_length.
  assert (HbH : nBlockYSize b = nBlockYSize b0) by reflexivity.
  assert (HH : 0 < nBlockYSize b0) by nia.
  assert (Hn : 0 < nRasterYSize b0) by nia.
  assert (Hat : computeBlockRowSegment b blockIndex
                  (nRasterYSize b0 - snd blockIndex * nBlockYSize b0) = Undefined).
  { unfold computeBlockRowSegment. rewrite HbH.
    replace (snd blockIndex * nBlockYSize b0
             + (nRasterYSize b0 - snd blockIndex * nBlockYSize b0))
      with (Z.of_nat (length (rowSegmentsInsidePredictionRadius b))) by lia.
    rewrite vector_at_end. reflexivity. }
  split; [exact Hlen |]. split; [exact Hat |].
  unfold postProcessBlock, withRowSegments. rewrite Hnil. fold b.
  change (eDataType b) with (eDataType b0). rewrite HT.
  destruct (snd (getValidValuesRange (sectionNum b) (Fp.nan, Fp.nan)))
    as [minValue maxValue].
  unfold for_rangeM.
  rewrite (for_loopM_undefined _ _ _
             (nRasterYSize b0 - snd blockIndex * nBlockYSize b0)); [reflexivity | | |].
  - rewrite HbH. nia.
  - intros y t Hy. unfold computeBlockRowSegment.
    rewrite vector_at_inside by (rewrite HbH; nia). cbn [bind]. eexists. reflexivity.
  - intros t. rewrite Hat. reflexivity.
Qed.

(** A raster of height 5 in blocks of height 2: the block row 2 of 3. *)
Lemma C6_partial_bottom_block_witness :
  nBlocksPerColumn Scenario.band_h5 = 3
  /\ @IReadBlock x86_64 Scenario.band_h5 0 2 [PxInt 0; PxInt 0] = Undefined
  /\ @postProcessBlock x86_64 Scenario.band_h5 (0, 2) [PxInt 7; PxInt 8] = Undefined.
Proof.
  split; [reflexivity |]. split; [vm_compute; reflexivity |].
  apply (@C6_partial_bottom_block_reads_past_the_cache x86_64 Scenario.band_h5
           (0, 2) int16_t [PxInt 7; PxInt 8] eq_refl eq_refl);
    vm_compute; try split; congruence.
Defined.

(** C1 (the code at the failing input, on x86-64): an 8-bit band of
    section 2 has no valid range; its pixel 5 lies inside the coverage
    segment and is not the sentinel 200, and the read returns 0 for it:
    both bounds are the conversion of NaN to the pixel type. *)
Theorem C1_byte_pixel_without_range_is_overwritten :
  getValidValuesRange
    (sectionNum (Scenario.band_1x1 2 GDT_Byte (PxInt 5))) (Fp.nan, Fp.nan)
  = (false, (Fp.nan, Fp.nan))
  /\ noDataValue (Scenario.band_1x1 2 GDT_Byte (PxInt 5)) = Some (Fp.of_int 200)
  /\ @computeBlockRowSegment
       (@computeRowSegmentsInsidePredictionRadius x86_64
          (Scenario.band_1x1 2 GDT_Byte (PxInt 5))) (0, 0) 0
     = Ok {| seg_start := 0; seg_end := 1 |}
  /\ px_eqb (PxInt 5) (@static_cast x86_64 uint8_t (Fp.of_int 200)) = false
  /\ @static_cast x86_64 uint8_t Fp.nan = PxInt 0
  /\ @IReadBlock x86_64 (Scenario.band_1x1 2 GDT_Byte (PxInt 5)) 0 0 [PxInt 0]
     = Ok (CE_None,
           @computeRowSegmentsInsidePredictionRadius x86_64
             (Scenario.band_1x1 2 GDT_Byte (PxInt 5)),
           [PxInt 0]).
Proof. repeat split; vm_compute; reflexivity. Qed.

(** C8 (the code at the failing input, on x86-64): for a 16-bit unsigned
    band of section 1 the lower bound -18000 converts to 47536 and the upper
    bound to 18000; the pixel 0 is post-processed to 47536, and
    post-processing that buffer again gives 18000. *)
Theorem C8_uint16_angle_band_is_not_idempotent :
  @static_cast x86_64 uint16_t (Fp.of_int (-18000)) = PxInt 47536
  /\ @static_cast x86_64 uint16_t (Fp.of_int 18000) = PxInt 18000
  /\ @postProcessBlock x86_64 (Scenario.band_1x1 1 GDT_UInt16 (PxInt 0)) (0, 0)
       [PxInt 0]
     = Ok (@computeRowSegmentsInsidePredictionRadius x86_64
             (Scenario.band_1x1 1 GDT_UInt16 (PxInt 0)),
           [PxInt 47536])
  /\ @postProcessBlock x86_64
       (@computeRowSegmentsInsidePredictionRadius x86_64
          (Scenario.band_1x1 1 GDT_UInt16 (PxInt 0))) (0, 0) [PxInt 47536]
     = Ok (@computeRowSegmentsInsidePredictionRadius x86_64
             (Scenario.band_1x1 1 GDT_UInt16 (PxInt 0)),
           [PxInt 18000]).
Proof. repeat split; vm_compute; reflexivity. Qed.

(** C10 (amended): for a cached segment with start <= end, a positive
    block width and a block column for which the two differences
    start - startColumnIndex and end - startColumnIndex are values of an
    [int], the block-local segment satisfies
    0 <= start <= end <= blockWidth; with a sentinel the three loops visit
    the columns 0, 1, ..., blockWidth - 1, each once and in this order, and
    without a sentinel only the clamping loop runs and visits start, ...,
    end - 1. *)
Theorem C10_block_row_segment_bounds_and_columns (b : RasterBand)
  (blockIndex : Z * Z) (y : Z) (rowSegment : RowSegment) :
  0 < nBlockXSize b ->
  vector_at (rowSegmentsInsidePredictionRadius b)
    (snd blockIndex * nBlockYSize b + y) = Ok rowSegment ->
  seg_start rowSegment <= seg_end rowSegment ->
  in_range I32 (seg_start rowSegment - startColumnIndex b blockIndex) = true ->
  in_range I32 (seg_end rowSegment - startColumnIndex b blockIndex) = true ->
  exists seg : RowSegment,
    computeBlockRowSegment b blockIndex y = Ok seg
    /\ 0 <= seg_start seg <= seg_end seg
    /\ seg_end seg <= nBlockXSize b
    /\ (forall v : spec_float,
          columns_visited (nBlockXSize b) seg (Some v) = seqZ 0 (nBlockXSize b))
    /\ columns_visited (nBlockXSize b) seg None
       = seqZ (seg_start seg) (seg_end seg - seg_start seg).
Proof.
  intros HW Hat Hle Hrs Hre. unfold computeBlockRowSegment. rewrite Hat. cbn [bind].
  eexists. split; [reflexivity |]. unfold clipToBlock, int_sub.
  rewrite (wrap_in_range I32 _ Hrs), (wrap_in_range I32 _ Hre).
  cbn [seg_start seg_end].
  set (s := Z.max 0 (Z.min (nBlockXSize b)
                       (seg_start rowSegment - startColumnIndex b blockIndex))).
  set (e := Z.max 0 (Z.min (nBlockXSize b)
                       (seg_end rowSegment - startColumnIndex b blockIndex))).
  assert (Hs : 0 <= s <= e) by (subst s e; lia).
  assert (He : e <= nBlockXSize b) by (subst e; lia).
  split; [exact Hs |]. split; [exact He |]. split.
  - intros v. unfold columns_visited, row_loops. cbn [has_value seg_start seg_end].
    rewrite !for_range_record. cbn [app].
    replace (Z.max 0 (s - 0)) with s by lia.
    replace (Z.max 0 (e - s)) with (e - s) by lia.
    replace (Z.max 0 (nBlockXSize b - e)) with (nBlockXSize b - e) by lia.
    replace (seqZ 0 (nBlockXSize b))
      with (seqZ 0 (s + ((e - s) + (nBlockXSize b - e)))) by (f_equal; lia).
    rewrite (seqZ_app 0 s) by lia.
    rewrite (seqZ_app (0 + s) (e - s)) by lia.
    rewrite <- app_assoc. f_equal. f_equal; f_equal; lia.
  - unfold columns_visited, row_loops. cbn [has_value seg_start seg_end].
    rewrite for_range_record. cbn [app]. f_equal. lia.
Qed.

(** The only block of the band without a sentinel, row 0. *)
Lemma C10_block_row_segment_witness :
  0 < nBlockXSize Scenario.band_unmasked
  /\ vector_at (rowSegmentsInsidePredictionRadius Scenario.band_unmasked)
       (snd (0, 0) * nBlockYSize Scenario.band_unmasked + 0)
     = Ok {| seg_start := 0; seg_end := 1 |}
  /\ seg_start {| seg_start := 0; seg_end := 1 |}
     <= seg_end {| seg_start := 0; seg_end := 1 |}
  /\ exists seg : RowSegment,
       computeBlockRowSegment Scenario.band_unmasked (0, 0) 0 = Ok seg
       /\ 0 <= seg_start seg <= seg_end seg
       /\ seg_end seg <= nBlockXSize Scenario.band_unmasked.
Proof.
  split; [reflexivity |]. split; [reflexivity |]. split; [cbn; lia |].
  destruct (C10_block_row_segment_bounds_and_columns Scenario.band_unmasked
              (0, 0) 0 {| seg_start := 0; seg_end := 1 |}
              eq_refl eq_refl ltac:(cbn; lia) eq_refl eq_refl)
    as (seg & Hseg & Hs & He & _).
  exists seg. split; [exact Hseg |]. split; [exact Hs | exact He].
Defined.

(** C10 (the bounds fail without the proviso): for the cached segment
    [-2147483647, 3) and the second block of width 2 the difference
    -2147483647 - 2 is no [int]; the block-local segment is [2, 1), and with
    a sentinel the loops visit column 0 once and column 1 twice. *)
Lemma C10_overflow_reverses_the_segment :
  seg_start {| seg_start := -2147483647; seg_end := 3 |}
  <= seg_end {| seg_start := -2147483647; seg_end := 3 |}
  /\ in_range I32 (-2147483647 - startColumnIndex Cases.band_wide (1, 0)) = false
  /\ computeBlockRowSegment Cases.band_wide (1, 0) 0
     = Ok {| seg_start := 2; seg_end := 1 |}
  /\ columns_visited (nBlockXSize Cases.band_wide)
       {| seg_start := 2; seg_end := 1 |} (noDataValue Cases.band_wide)
     = [0; 1; 1].
Proof.
  split; [cbn; lia |]. split; [reflexivity |]. split; [reflexivity |].
  reflexivity.
Qed.

(** The same on a computed mask: the chord of the band with the huge radius
    is [-2147483647, 2147483647) and covers the raster; in the second
    block the difference -2147483647 - 2 wraps around, the block-local
    segment is [2, 2), and both pixels of the tile become the sentinel,
    while those of the first block are clamped. *)
Lemma wrapped_segment_masks_the_block :
  rowSegmentsInsidePredictionRadius
    (@computeRowSegmentsInsidePredictionRadius x86_64 Cases.band_huge)
  = [{| seg_start := -2147483647; seg_end := 2147483647 |}]
  /\ computeBlockRowSegment
       (@computeRowSegmentsInsidePredictionRadius x86_64 Cases.band_huge) (1, 0) 0
     = Ok {| seg_start := 2; seg_end := 2 |}
  /\ @IReadBlock x86_64 Cases.band_huge 1 0 [PxInt 0; PxInt 0]
     = Ok (CE_None, @computeRowSegmentsInsidePredictionRadius x86_64 Cases.band_huge,
           [PxInt (-9999); PxInt (-9999)])
  /\ @IReadBlock x86_64 Cases.band_huge 0 0 [PxInt 0; PxInt 0]
     = Ok (CE_None, @computeRowSegmentsInsidePredictionRadius x86_64 Cases.band_huge,
           [PxInt 200; PxInt 0]).
Proof. repeat split; vm_compute; reflexivity. Qed.

(** C10 (the claim as stated fails): on a band without a sentinel the two
    sentinel loops do not run; with the block-local segment [0, 1) of a row
    of width 2 the loops visit column 0 only, and column 1 is not touched. *)
Lemma C10_no_sentinel_leaves_columns_unvisited :
  noDataValue Scenario.band_unmasked = None
  /\ computeBlockRowSegment Scenario.band_unmasked (0, 0) 0
     = Ok {| seg_start := 0; seg_end := 1 |}
  /\ columns_visited (nBlockXSize Scenario.band_unmasked)
       {| seg_start := 0; seg_end := 1 |} (noDataValue Scenario.band_unmasked)
     = [0]
  /\ seqZ 0 (nBlockXSize Scenario.band_unmasked) = [0; 1]
  /\ ~ In 1 (columns_visited (nBlockXSize Scenario.band_unmasked)
               {| seg_start := 0; seg_end := 1 |}
               (noDataValue Scenario.band_unmasked)).
Proof.
  split; [reflexivity |]. split; [reflexivity |]. split; [reflexivity |].
  split; [reflexivity |].
  intros Hin. vm_compute in Hin. destruct Hin as [Heq | []]. discriminate Heq.
Qed.

(** * The rest of the band *)

(** ** Loops that keep a property *)

Lemma for_loop_preserves_in {S : Type} (P : S -> Prop) (body : Z -> S -> S)
  (n : nat) (a : Z) (s : S) :
  (forall x t, a <= x < a + Z.of_nat n -> P t -> P (body x t)) ->
  P s -> P (for_loop n a body s).
Proof.
  revert a s. induction n as [|n IH]; intros a s Hbody Hs; cbn [for_loop];
    [exact Hs |].
  apply IH; [|apply Hbody; [lia | exact Hs]].
  intros x t Hx. apply Hbody. lia.
Qed.

Lemma for_loopM_preserves_in {S : Type} (P : S -> Prop) (body : Z -> S -> outcome S)
  (n : nat) (a : Z) (s s' : S) :
  (forall x t t', a <= x < a + Z.of_nat n -> P t -> body x t = Ok t' -> P t') ->
  P s -> for_loopM n a body s = Ok s' -> P s'.
Proof.
  revert a s. induction n as [|n IH]; intros a s Hbody Hs; cbn [for_loopM].
  - intros [= <-]. exact Hs.
  - destruct (body a s) as [t | e |] eqn:Hb; cbn [bind]; try discriminate.
    apply IH; [|eapply Hbody; [| exact Hs | exact Hb]; lia].
    intros x u u' Hx. apply Hbody. lia.
Qed.

(** ** The block assembler, pixel by pixel *)

Lemma write_pixels_lookup (data : buffer) (src : list pixel) (j : nat) :
  write_pixels data src !! j
  = if decide (j < length src)%nat
    then (fun _ => default (PxInt 0) (src !! j)) <$> (data !! j)
    else data !! j.
Proof.
  unfold write_pixels, for_range.
  rewrite (for_loop_ext_in _
             (fun x t => modify_at (0 + x)
                (fun _ => default (PxInt 0) (src !! Z.to_nat x)) t)).
  2:{ intros x t Hx. unfold load. destruct (Z.ltb_spec x 0); [lia |].
      destruct (lookup_lt_is_Some_2 src (Z.to_nat x) ltac:(lia)) as [v Hv].
      rewrite Hv. cbn [default]. rewrite Z.add_0_l. apply store_modify_at. }
  rewrite (for_loop_modify_lookup
             (fun x _ => default (PxInt 0) (src !! Z.to_nat x))) by lia.
  destruct (decide (_ <= _ < _)%nat) as [Hj|Hj];
    destruct (decide (j < length src)%nat) as [Hj'|Hj']; try lia; [|reflexivity].
  replace (Z.to_nat (Z.of_nat j - 0)) with j by lia. reflexivity.
Qed.

(** The pixels a getter writes replace the start of the buffer. *)
Lemma write_pixels_prefix (data : buffer) (src : list pixel) :
  (length src <= length data)%nat ->
  write_pixels data src = src ++ drop (length src) data.
Proof.
  intros Hlen. apply list_eq. intros j. rewrite write_pixels_lookup.
  destruct (decide (j < length src)%nat) as [Hj|Hj].
  - rewrite lookup_app_l by exact Hj.
    destruct (lookup_lt_is_Some_2 data j ltac:(lia)) as [w ->].
    destruct (lookup_lt_is_Some_2 src j Hj) as [v ->]. reflexivity.
  - rewrite lookup_app_r by lia. rewrite lookup_drop. f_equal. lia.
Qed.

Lemma write_pixels_same_length (data : buffer) (src : list pixel) :
  length src = length data -> write_pixels data src = src.
Proof.
  intros Hlen. rewrite write_pixels_prefix by lia.
  rewrite Hlen, drop_all, app_nil_r. reflexivity.
Qed.


(** X6: a tile whose pixel count is that of the block is copied verbatim
    to the start of the image: the read reports the tile present, and the
    image is the tile's pixels followed by what the image held beyond them;
    when the tile has as many pixels as the image, the image is exactly the
    tile's pixels. *)
Theorem full_tile_is_read_verbatim `{Target} (b : RasterBand) (tile : Tile)
  (T : CType) (nXBlockOff nYBlockOff : Z) (pImage : buffer) :
  let tileIterator := CreateTileIterator (apiWrapper b) (sectionNum b) in
  let pixels := GetData tile T (getNumPixelsPerBlock b) in
  tileIterator nXBlockOff nYBlockOff = Some tile ->
  GetPixelCount tile = getNumPixelsPerBlock b ->
  ctype_of (eDataType b) = Some T ->
  (length pixels <= length pImage)%nat ->
  readBlock b tileIterator (nXBlockOff, nYBlockOff) pImage
  = Ok (true, pixels ++ drop (length pixels) pImage)
  /\ (length pixels = length pImage ->
      readBlock b tileIterator (nXBlockOff, nYBlockOff) pImage = Ok (true, pixels)).
Proof.
  intros tileIterator pixels Htile Hcount HT Hlen.
  assert (Hread : readBlock b tileIterator (nXBlockOff, nYBlockOff) pImage
                  = Ok (true, pixels ++ drop (length pixels) pImage)).
  { unfold readBlock, readTile. cbn [fst snd].
    rewrite Htile, Hcount, Z.eqb_refl, HT. cbn [bind]. fold pixels.
    rewrite write_pixels_prefix by exact Hlen. reflexivity. }
  split; [exact Hread |].
  intros Heq. rewrite Hread, Heq, drop_all, app_nil_r. reflexivity.
Qed.

(** One [memcpy]: the row [y] of the tile lands at the start of the row [y]
    of the block. *)
Lemma copy_row_imap (tileData : buffer) (w W y : Z) (blk : buffer) :
  0 <= w -> 0 <= y -> 0 <= W ->
  (y + 1) * w <= Z.of_nat (length tileData) ->
  copy_row tileData w W y blk
  = imap (fun j v => if decide (y * W <= Z.of_nat j < y * W + w)
                     then default (PxInt 0)
                            (tileData !! Z.to_nat (y * w + (Z.of_nat j - y * W)))
                     else v) blk.
Proof.
  intros Hw Hy HW Hlen. unfold copy_row, for_range.
  rewrite (for_loop_ext_in _
             (fun x t => modify_at (y * W + x)
                ((fun x _ => default (PxInt 0) (tileData !! Z.to_nat (y * w + x))) x) t)).
  2:{ intros x t Hx. unfold load. destruct (Z.ltb_spec (y * w + x) 0); [nia |].
      destruct (lookup_lt_is_Some_2 tileData (Z.to_nat (y * w + x)) ltac:(nia))
        as [v Hv].
      rewrite Hv. cbn [default]. apply store_modify_at. }
  pose proof (for_range_modify
                (fun x _ => default (PxInt 0) (tileData !! Z.to_nat (y * w + x)))
                (y * W) 0 w blk ltac:(nia)) as Hfr.
  unfold for_range in Hfr. rewrite Hfr.
  apply imap_ext. intros j v _.
  destruct (decide (y * W + 0 <= _ < _)) as [Hj|Hj];
    destruct (decide (y * W <= _ < _)) as [Hj'|Hj']; try lia; reflexivity.
Qed.

Section Partial.
Context `{Target}.

Lemma fillPartialBlock_imap (b : RasterBand) (tile : Tile) (T : CType)
  (blockData : buffer) :
  let w := fst (GetTileRegion tile) in
  let h := snd (GetTileRegion tile) in
  let pixels := GetData tile T (w * h) in
  ctype_of (eDataType b) = Some T ->
  0 <= w <= nBlockXSize b -> 0 <= h <= nBlockYSize b -> 0 < nBlockXSize b ->
  length pixels = Z.to_nat (w * h) ->
  fillPartialBlock b tile blockData
  = Ok (imap (fun j v =>
                if decide (0 <= Z.of_nat j < h * nBlockXSize b)
                then if Z.of_nat j mod nBlockXSize b <? w
                     then default (PxInt 0)
                            (pixels !! Z.to_nat (Z.of_nat j / nBlockXSize b * w
                                                 + Z.of_nat j mod nBlockXSize b))
                     else v
                else v) blockData).
Proof.
  intros w h pixels HT Hw Hh HW Hlen.
  unfold fillPartialBlock, readTile.
  destruct (GetTileRegion tile) as [w0 h0] eqn:Hregion.
  cbn [fst snd] in w, h. subst w h.
  destruct (Z.gtb_spec w0 (nBlockXSize b)); [lia |].
  destruct (Z.gtb_spec h0 (nBlockYSize b)); [lia |]. cbn [orb].
  rewrite HT. cbn [bind]. fold pixels.
  rewrite write_pixels_same_length by (rewrite length_replicate; exact Hlen).
  f_equal. unfold for_range.
  rewrite (for_loop_ext_in _
             (fun y t => imap (fun j v =>
                if decide (y * nBlockXSize b <= Z.of_nat j
                           < y * nBlockXSize b + nBlockXSize b)
                then (fun y x v => if x <? w0
                                   then default (PxInt 0)
                                          (pixels !! Z.to_nat (y * w0 + x))
                                   else v)
                       y (Z.of_nat j - y * nBlockXSize b) v
                else v) t)).
  2:{ intros y t Hy. rewrite copy_row_imap by nia.
      apply imap_ext. intros j v _.
      destruct (Z.ltb_spec (Z.of_nat j - y * nBlockXSize b) w0);
        repeat (destruct (decide _)); try lia; reflexivity. }
  rewrite (for_loop_rows
             (fun y x v => if x <? w0
                           then default (PxInt 0) (pixels !! Z.to_nat (y * w0 + x))
                           else v)
             (nBlockXSize b)) by lia.
  apply imap_ext. intros j v _.
  destruct (decide (0 * _ <= _ < _)) as [Hj|Hj];
    destruct (decide (0 <= _ < _)) as [Hj'|Hj']; try lia; reflexivity.
Qed.
End Partial.

(** X7: a tile with another pixel count whose region fits the block is
    placed at the top left of the block, row by row: the pixel at column
    [col] and row [row] of the region lands at offset
    [row * nBlockXSize + col], every pixel of the image outside the region
    is the one that was passed in, and the image keeps its size. *)
Theorem partial_tile_is_placed_at_the_top_left `{Target} (b : RasterBand)
  (tile : Tile) (T : CType) (nXBlockOff nYBlockOff : Z) (pImage : buffer) :
  let tileIterator := CreateTileIterator (apiWrapper b) (sectionNum b) in
  let w := fst (GetTileRegion tile) in
  let h := snd (GetTileRegion tile) in
  let pixels := GetData tile T (w * h) in
  tileIterator nXBlockOff nYBlockOff = Some tile ->
  GetPixelCount tile <> getNumPixelsPerBlock b ->
  ctype_of (eDataType b) = Some T ->
  0 <= w <= nBlockXSize b -> 0 <= h <= nBlockYSize b -> 0 < nBlockXSize b ->
  length pixels = Z.to_nat (w * h) ->
  exists data' : buffer,
    readBlock b tileIterator (nXBlockOff, nYBlockOff) pImage = Ok (true, data')
    /\ length data' = length pImage
    /\ (forall col row : Z,
          0 <= col < w -> 0 <= row < h ->
          row * nBlockXSize b + col < Z.of_nat (length pImage) ->
          data' !! Z.to_nat (row * nBlockXSize b + col)
          = pixels !! Z.to_nat (row * w + col))
    /\ (forall j : nat,
          ~ (Z.of_nat j mod nBlockXSize b < w /\ Z.of_nat j / nBlockXSize b < h) ->
          data' !! j = pImage !! j).
Proof.
  intros tileIterator w h pixels Htile Hcount HT Hw Hh HW Hlen.
  eexists. split.
  { unfold readBlock. cbn [fst snd]. rewrite Htile.
    destruct (Z.eqb_spec (GetPixelCount tile) (getNumPixelsPerBlock b));
      [contradiction |].
    rewrite (fillPartialBlock_imap b tile T) by assumption. reflexivity. }
  split; [apply length_imap |]. split.
  - intros col row Hcol Hrow Hin. rewrite list_lookup_imap.
    destruct (lookup_lt_is_Some_2 pImage (Z.to_nat (row * nBlockXSize b + col))
                ltac:(nia)) as [v ->].
    cbn [fmap option_fmap option_map].
    rewrite Z2Nat.id by nia.
    assert (Hq : (row * nBlockXSize b + col) / nBlockXSize b = row).
    { symmetry. apply (Z.div_unique_pos _ _ _ col); lia. }
    assert (Hm : (row * nBlockXSize b + col) mod nBlockXSize b = col).
    { symmetry. apply (Z.mod_unique_pos _ _ row); lia. }
    rewrite Hq, Hm. fold w h pixels.
    destruct (decide _) as [_|Hn]; [|nia].
    destruct (Z.ltb_spec col w); [|lia].
    destruct (lookup_lt_is_Some_2 pixels (Z.to_nat (row * w + col)) ltac:(nia))
      as [p ->].
    reflexivity.
  - intros j Hout. rewrite list_lookup_imap.
    destruct (pImage !! j) as [v|]; [|reflexivity].
    cbn [fmap option_fmap option_map]. f_equal. fold w h.
    destruct (decide _) as [Hj|_]; [|reflexivity].
    destruct (Z.ltb_spec (Z.of_nat j mod nBlockXSize b) w); [|reflexivity].
    exfalso. apply Hout. split; [assumption |].
    apply Z.div_lt_upper_bound; lia.
Qed.
Lemma SFeqb_refl_or_nan (f : spec_float) : SFeqb f f = true \/ f = S754_nan.
Proof.
  unfold SFeqb.
  destruct f as [s | s | | s m e]; cbn; try (left; reflexivity);
    try (destruct s; left; reflexivity); [right; reflexivity |].
  left. destruct s; rewrite Z.compare_refl, Pos.compare_cont_refl; reflexivity.
Qed.

(** The clamping loop leaves the sentinel alone: it either recognises it or,
    when the sentinel is NaN, compares it with both bounds in vain. *)
Lemma clamp_val_sentinel (nd lo hi : pixel) : clamp_val (Some nd) lo hi nd = nd.
Proof.
  unfold clamp_val. destruct nd as [z | f]; cbn [px_eqb].
  - rewrite Z.eqb_refl. reflexivity.
  - destruct (SFeqb_refl_or_nan f) as [-> | ->]; [reflexivity |].
    cbn. destruct lo as [zl | fl], hi as [zh | fh]; try reflexivity;
      unfold SFltb; destruct fh; reflexivity.
Qed.

Lemma row_pixel_sentinel (nd lo hi : pixel) (seg : RowSegment) (x : Z) :
  row_pixel (Some nd) lo hi seg x nd = nd.
Proof.
  unfold row_pixel. destruct (x <? seg_start seg); [reflexivity |].
  destruct (x <? seg_end seg); [apply clamp_val_sentinel | reflexivity].
Qed.

Section PostProcessor.
Context `{Target}.

(** X8: a block that [fillNoDataBlock] has filled with the sentinel is a
    fixed point of the post-processor, for every encoding, sentinel, range
    and coverage segment: neither the masking loops nor the clamping loop
    change a pixel of it. *)
Theorem sentinel_filled_block_is_left_unchanged (b0 : RasterBand)
  (blockIndex : Z * Z) (T : CType) (v : spec_float) (pImage : buffer) :
  ctype_of (eDataType b0) = Some T ->
  noDataValue b0 = Some v ->
  Z.of_nat (length pImage) = getNumPixelsPerBlock b0 ->
  0 < nBlockXSize b0 -> 0 < nBlockYSize b0 -> 0 <= snd blockIndex ->
  (snd blockIndex + 1) * nBlockYSize b0
  <= Z.of_nat (length (rowSegmentsInsidePredictionRadius (withRowSegments b0))) ->
  exists filled : buffer,
    fillNoDataBlock b0 pImage = Ok filled
    /\ postProcessBlock b0 blockIndex filled = Ok (withRowSegments b0, filled).
Proof.
  intros HT Hv Hlen HW HH Hy Hin.
  exists (replicate (length pImage) (static_cast T v)). split.
  - unfold fillNoDataBlock. rewrite Hv, HT, <- Hlen, fillWithNoDataValue_all.
    reflexivity.
  - rewrite (postProcessBlock_imap b0 blockIndex T) by assumption.
    f_equal. f_equal. apply list_eq. intros j. rewrite list_lookup_imap.
    destruct (decide (j < length pImage)%nat) as [Hj|Hj].
    + rewrite lookup_replicate_2 by exact Hj. cbn [fmap option_fmap option_map].
      f_equal. unfold block_pixel. destruct (decide _); [|reflexivity].
      destruct (withRowSegments_fields b0) as (_ & _ & Hnd & _).
      rewrite Hnd, Hv. cbn [option_map]. apply row_pixel_sentinel.
    + rewrite lookup_ge_None_2 by (rewrite length_replicate; lia). reflexivity.
Qed.

(** X9: the post-processor masks what lies outside the coverage segment:
    every pixel of the block outside the block-local segment of its row
    becomes the sentinel converted to the encoding when a sentinel is
    configured and is left as it was when none is; the pixels of the buffer
    beyond the block are never written, and the buffer keeps its size. *)
Theorem pixels_outside_the_segment_become_the_sentinel (b0 : RasterBand)
  (blockIndex : Z * Z) (T : CType) (data : buffer) :
  let b := withRowSegments b0 in
  ctype_of (eDataType b0) = Some T ->
  0 < nBlockXSize b0 -> 0 < nBlockYSize b0 -> 0 <= snd blockIndex ->
  (snd blockIndex + 1) * nBlockYSize b0
  <= Z.of_nat (length (rowSegmentsInsidePredictionRadius b)) ->
  exists data' : buffer,
    postProcessBlock b0 blockIndex data = Ok (b, data')
    /\ length data' = length data
    /\ (forall j : nat,
          0 <= Z.of_nat j < nBlockYSize b0 * nBlockXSize b0 ->
          (j < length data)%nat ->
          let seg := clipToBlock b blockIndex
                       (rowSegmentAt b (snd blockIndex * nBlockYSize b0
                                        + Z.of_nat j / nBlockXSize b0)) in
          ~ (seg_start seg <= Z.of_nat j mod nBlockXSize b0 < seg_end seg) ->
          data' !! j = match noDataValue b0 with
                       | Some v => Some (static_cast T v)
                       | None => data !! j
                       end)
    /\ (forall j : nat,
          nBlockYSize b0 * nBlockXSize b0 <= Z.of_nat j -> data' !! j = data !! j).
Proof.
  intros b HT HW HH Hy Hin.
  destruct (withRowSegments_fields b0) as (HeT & Hsec & Hnd & HbW & HbH & _).
  fold b in HeT, Hsec, Hnd, HbW, HbH.
  exists (imap (block_pixel b blockIndex T) data).
  split; [apply postProcessBlock_imap; assumption |].
  split; [apply length_imap |]. split.
  - intros j Hj Hlen seg Hout. rewrite list_lookup_imap.
    destruct (lookup_lt_is_Some_2 data j Hlen) as [p Hp]. rewrite Hp.
    cbn [fmap option_fmap option_map].
    unfold block_pixel. rewrite HbW, HbH.
    destruct (decide _) as [_|Hn]; [|contradiction].
    fold seg. rewrite Hnd. unfold row_pixel.
    destruct (noDataValue b0) as [v|]; cbn [option_map].
    + destruct (Z.ltb_spec (Z.of_nat j mod nBlockXSize b0) (seg_start seg));
        [reflexivity |].
      destruct (Z.ltb_spec (Z.of_nat j mod nBlockXSize b0) (seg_end seg));
        [lia | reflexivity].
    + destruct (Z.leb_spec (seg_start seg) (Z.of_nat j mod nBlockXSize b0));
        destruct (Z.ltb_spec (Z.of_nat j mod nBlockXSize b0) (seg_end seg));
        cbn [andb]; try lia; reflexivity.
  - intros j Hj. rewrite list_lookup_imap.
    destruct (data !! j) as [p|]; [|reflexivity].
    cbn [fmap option_fmap option_map]. f_equal.
    unfold block_pixel. rewrite HbW, HbH.
    destruct (decide _) as [Hn|_]; [lia | reflexivity].
Qed.

(** X10: on a band of an integer encoding whose converted bounds are
    ordered, a pixel inside the block-local segment that is not the sentinel
    becomes [max lo (min hi v)]; a pixel equal to the sentinel is kept. *)
Theorem integer_pixels_inside_the_segment_are_clamped (b0 : RasterBand)
  (blockIndex : Z * Z) (T : CType) (lo hi : Z) (data : buffer) :
  let b := withRowSegments b0 in
  ctype_of (eDataType b0) = Some T ->
  typedMinValue b0 T = PxInt lo -> typedMaxValue b0 T = PxInt hi -> lo <= hi ->
  0 < nBlockXSize b0 -> 0 < nBlockYSize b0 -> 0 <= snd blockIndex ->
  (snd blockIndex + 1) * nBlockYSize b0
  <= Z.of_nat (length (rowSegmentsInsidePredictionRadius b)) ->
  exists data' : buffer,
    postProcessBlock b0 blockIndex data = Ok (b, data')
    /\ forall (j : nat) (v : Z),
         0 <= Z.of_nat j < nBlockYSize b0 * nBlockXSize b0 ->
         let seg := clipToBlock b blockIndex
                      (rowSegmentAt b (snd blockIndex * nBlockYSize b0
                                       + Z.of_nat j / nBlockXSize b0)) in
         seg_start seg <= Z.of_nat j mod nBlockXSize b0 < seg_end seg ->
         data !! j = Some (PxInt v) ->
         data' !! j
         = Some (if match noDataValue b0 with
                    | Some d => px_eqb (PxInt v) (static_cast T d)
                    | None => false
                    end
                 then PxInt v
                 else PxInt (Z.max lo (Z.min hi v))).
Proof.
  intros b HT Hlo Hhi Hord HW HH Hy Hin.
  destruct (withRowSegments_fields b0) as (HeT & Hsec & Hnd & HbW & HbH & _).
  fold b in HeT, Hsec, Hnd, HbW, HbH.
  exists (imap (block_pixel b blockIndex T) data).
  split; [apply postProcessBlock_imap; assumption |].
  intros j v Hj seg Hseg Hv. rewrite list_lookup_imap, Hv.
  cbn [fmap option_fmap option_map]. f_equal.
  unfold block_pixel. rewrite HbW, HbH.
  destruct (decide _) as [_|Hn]; [|contradiction].
  fold seg.
  assert (Hlo' : typedMinValue b T = PxInt lo)
    by (unfold typedMinValue in *; rewrite Hsec; exact Hlo).
  assert (Hhi' : typedMaxValue b T = PxInt hi)
    by (unfold typedMaxValue in *; rewrite Hsec; exact Hhi).
  rewrite Hlo', Hhi', Hnd.
  assert (Hclamp : forall tnd,
            clamp_val tnd (PxInt lo) (PxInt hi) (PxInt v)
            = if match tnd with Some nd => px_eqb (PxInt v) nd | None => false end
              then PxInt v else PxInt (Z.max lo (Z.min hi v))).
  { intros tnd. unfold clamp_val.
    destruct (match tnd with Some nd => px_eqb (PxInt v) nd | None => false end);
      [reflexivity |].
    cbn [px_ltb]. destruct (Z.ltb_spec v lo); [f_equal; lia |].
    destruct (Z.ltb_spec hi v); f_equal; lia. }
  unfold row_pixel. destruct (noDataValue b0) as [d|]; cbn [option_map].
  - destruct (Z.ltb_spec (Z.of_nat j mod nBlockXSize b0) (seg_start seg)); [lia |].
    destruct (Z.ltb_spec (Z.of_nat j mod nBlockXSize b0) (seg_end seg)); [|lia].
    apply Hclamp.
  - destruct (Z.leb_spec (seg_start seg) (Z.of_nat j mod nBlockXSize b0)); [|lia].
    destruct (Z.ltb_spec (Z.of_nat j mod nBlockXSize b0) (seg_end seg)); [|lia].
    apply (Hclamp None).
Qed.

(** X11: the first read of a block that lies inside the raster and for
    which the provider has a full tile succeeds: it computes the cache and
    delivers the tile's pixels, each post-processed ([block_pixel]); nothing
    of the image that was passed in is left. *)
Theorem full_tile_inside_the_raster_is_read_and_post_processed (b : RasterBand)
  (tile : Tile) (T : CType) (nXBlockOff nYBlockOff : Z) (pImage : buffer) :
  let pixels := GetData tile T (getNumPixelsPerBlock b) in
  rowSegmentsInsidePredictionRadius b = [] ->
  CreateTileIterator (apiWrapper b) (sectionNum b) nXBlockOff nYBlockOff = Some tile ->
  GetPixelCount tile = getNumPixelsPerBlock b ->
  ctype_of (eDataType b) = Some T ->
  length pixels = length pImage ->
  0 < nBlockXSize b -> 0 < nBlockYSize b -> 0 <= nYBlockOff ->
  (nYBlockOff + 1) * nBlockYSize b <= nRasterYSize b ->
  IReadBlock b nXBlockOff nYBlockOff pImage
  = Ok (CE_None, computeRowSegmentsInsidePredictionRadius b,
        imap (block_pixel (computeRowSegmentsInsidePredictionRadius b)
                (nXBlockOff, nYBlockOff) T) pixels).
Proof.
  intros pixels Hnil Htile Hcount HT Hlen HW HH Hy Hin.
  assert (Hw : withRowSegments b = computeRowSegmentsInsidePredictionRadius b)
    by (unfold withRowSegments; rewrite Hnil; reflexivity).
  unfold IReadBlock, readBlock, readTile. cbn [fst snd].
  rewrite Htile, Hcount, Z.eqb_refl, HT. cbn [bind fst snd]. fold pixels.
  rewrite write_pixels_same_length by exact Hlen.
  rewrite (postProcessBlock_imap b (nXBlockOff, nYBlockOff) T); try assumption.
  - rewrite Hw. reflexivity.
  - rewrite Hw, computeRowSegments_length. cbn [snd]. nia.
Qed.
End PostProcessor.

(** The tile of the scenario has the four pixels of the block. *)
Lemma full_tile_is_read_verbatim_witness :
  @readBlock x86_64 Scenario.band9
    (CreateTileIterator (apiWrapper Scenario.band9) (sectionNum Scenario.band9))
    (0, 0) Scenario.blank4
  = Ok (true, Cases.pixels9).
Proof.
  apply (proj2 (@full_tile_is_read_verbatim x86_64 Scenario.band9 Scenario.tile9
                  int16_t 0 0 Scenario.blank4 eq_refl eq_refl eq_refl (le_n 4))).
  reflexivity.
Defined.

(** A tile of 2 x 1 in a block of 2 x 2: the second pixel of the tile is the
    second pixel of the image, and the second row of the image is left. *)
Lemma partial_tile_is_placed_witness :
  exists data' : buffer,
    @readBlock x86_64 Cases.band_partial
      (CreateTileIterator (apiWrapper Cases.band_partial)
         (sectionNum Cases.band_partial))
      (0, 0) Scenario.blank4
    = Ok (true, data')
    /\ data' !! 1%nat = Some (PxInt 2)
    /\ data' !! 2%nat = Scenario.blank4 !! 2%nat.
Proof.
  destruct (@partial_tile_is_placed_at_the_top_left x86_64 Cases.band_partial
              Cases.tile_2x1 int16_t 0 0 Scenario.blank4 eq_refl
              ltac:(vm_compute; discriminate) eq_refl
              ltac:(vm_compute; split; discriminate)
              ltac:(vm_compute; split; discriminate)
              eq_refl eq_refl)
    as (data' & Hread & _ & Hin & Hout).
  exists data'. split; [exact Hread |]. split.
  - apply (Hin 1 0); vm_compute; split; (reflexivity || discriminate).
  - apply (Hout 2%nat). vm_compute. intros [_ Hc]. discriminate Hc.
Defined.

(** The block (0, 0) of the band without tiles, filled with -9999. *)
Lemma sentinel_filled_block_witness :
  exists filled : buffer,
    @fillNoDataBlock x86_64 Scenario.band_sparse Scenario.blank4 = Ok filled
    /\ @postProcessBlock x86_64 Scenario.band_sparse (0, 0) filled
       = Ok (@withRowSegments x86_64 Scenario.band_sparse, filled).
Proof.
  apply (@sentinel_filled_block_is_left_unchanged x86_64 Scenario.band_sparse (0, 0)
           int16_t (Fp.of_int (-9999)) Scenario.blank4
           eq_refl eq_refl eq_refl eq_refl eq_refl);
    vm_compute; discriminate.
Defined.

(** The block (1, 0) of the scenario lies outside the disk: its first pixel
    becomes the sentinel. *)
Lemma pixels_outside_the_segment_witness :
  exists data' : buffer,
    @postProcessBlock x86_64 Scenario.band9 (1, 0) Cases.pixels9
    = Ok (@withRowSegments x86_64 Scenario.band9, data')
    /\ data' !! 0%nat = Some (PxInt (-9999)).
Proof.
  destruct (@pixels_outside_the_segment_become_the_sentinel x86_64 Scenario.band9
              (1, 0) int16_t Cases.pixels9 eq_refl eq_refl eq_refl
              ltac:(vm_compute; discriminate) ltac:(vm_compute; discriminate))
    as (data' & Hpost & _ & Hout & _).
  exists data'. split; [exact Hpost |].
  apply (Hout 0%nat).
  - vm_compute. split; [discriminate | reflexivity].
  - vm_compute. lia.
  - vm_compute. intros [_ Hc]. discriminate Hc.
Defined.

(** The first pixel of the block (0, 0) of the scenario, 300, lies inside the
    segment and becomes 200. *)
Lemma integer_pixels_inside_the_segment_witness :
  exists data' : buffer,
    @postProcessBlock x86_64 Scenario.band9 (0, 0) Cases.pixels9
    = Ok (@withRowSegments x86_64 Scenario.band9, data')
    /\ data' !! 0%nat = Some (PxInt 200).
Proof.
  destruct (@integer_pixels_inside_the_segment_are_clamped x86_64 Scenario.band9
              (0, 0) int16_t 0 200 Cases.pixels9 eq_refl eq_refl eq_refl
              ltac:(lia) eq_refl eq_refl
              ltac:(vm_compute; discriminate) ltac:(vm_compute; discriminate))
    as (data' & Hpost & Hin).
  exists data'. split; [exact Hpost |].
  apply (Hin 0%nat 300).
  - vm_compute. split; [discriminate | reflexivity].
  - vm_compute. split; [discriminate | reflexivity].
  - reflexivity.
Defined.

(** The first read of the block (0, 0) of the scenario. *)
Lemma full_tile_inside_the_raster_witness :
  @IReadBlock x86_64 Scenario.band9 0 0 Scenario.blank4
  = Ok (CE_None, @computeRowSegmentsInsidePredictionRadius x86_64 Scenario.band9,
        imap (@block_pixel x86_64
                (@computeRowSegmentsInsidePredictionRadius x86_64 Scenario.band9)
                (0, 0) int16_t)
          Cases.pixels9).
Proof.
  apply (@full_tile_inside_the_raster_is_read_and_post_processed x86_64
           Scenario.band9 Scenario.tile9 int16_t 0 0 Scenario.blank4
           eq_refl eq_refl eq_refl eq_refl eq_refl eq_refl eq_refl);
    vm_compute; discriminate.
Defined.

(** ** What a read keeps *)

Lemma kept_from_refl (n : Z) (d : buffer) : kept_from n d d.
Proof. intros j _. reflexivity. Qed.

Lemma kept_from_store (n : Z) (d t : buffer) (i : Z) (v : pixel) :
  i < n -> kept_from n d t -> kept_from n d (store t i v).
Proof.
  intros Hi Ht j Hj. unfold store. destruct (Z.ltb_spec i 0); [apply Ht, Hj |].
  rewrite list_lookup_insert_ne by lia. apply Ht, Hj.
Qed.

Lemma kept_from_for_range (n : Z) (d t : buffer) (a c : Z)
  (body : Z -> buffer -> buffer) :
  (forall x u, a <= x < c -> kept_from n d u -> kept_from n d (body x u)) ->
  kept_from n d t -> kept_from n d (for_range a c body t).
Proof.
  intros Hbody Ht. unfold for_range.
  apply (for_loop_preserves_in (kept_from n d)); [|exact Ht].
  intros x u Hx. apply Hbody. lia.
Qed.

Lemma fillWithNoDataValue_kept (v : pixel) (d : buffer) (n : Z) :
  kept_from n d (fillWithNoDataValue v d n).
Proof.
  unfold fillWithNoDataValue.
  apply kept_from_for_range; [|apply kept_from_refl].
  intros x u Hx Hu. apply kept_from_store; [lia | exact Hu].
Qed.

Lemma write_pixels_kept (n : Z) (d : buffer) (src : list pixel) :
  Z.of_nat (length src) <= n -> kept_from n d (write_pixels d src).
Proof.
  intros Hlen. unfold write_pixels.
  apply kept_from_for_range; [|apply kept_from_refl].
  intros x u Hx Hu. destruct (load src x); [|exact Hu].
  apply kept_from_store; [lia | exact Hu].
Qed.

Lemma fillPartialBlock_kept (b : RasterBand) (tile : Tile) (d d' : buffer) :
  0 <= nBlockXSize b ->
  fillPartialBlock b tile d = Ok d' -> kept_from (getNumPixelsPerBlock b) d d'.
Proof.
  intros HW. unfold fillPartialBlock, readTile.
  destruct (GetTileRegion tile) as [w h].
  destruct (Z.gtb_spec w (nBlockXSize b)); cbn [orb]; [discriminate |].
  destruct (Z.gtb_spec h (nBlockYSize b)); cbn [orb]; [discriminate |].
  destruct (ctype_of (eDataType b)); cbn [bind]; [|discriminate].
  intros [= <-].
  apply kept_from_for_range; [|apply kept_from_refl].
  intros y u Hy Hu. unfold copy_row.
  apply kept_from_for_range; [|exact Hu].
  intros x t Hx Ht. destruct (load _ _); [|exact Ht].
  apply kept_from_store; [|exact Ht]. unfold getNumPixelsPerBlock. nia.
Qed.

Section Frame.
Context `{Target}.

(** The post-processor hands back the band with the cache. *)
Lemma postProcessBlock_band (b0 b' : RasterBand) (blockIndex : Z * Z)
  (d d' : buffer) :
  postProcessBlock b0 blockIndex d = Ok (b', d') -> b' = withRowSegments b0.
Proof.
  unfold postProcessBlock.
  destruct (snd (getValidValuesRange _ _)) as [lo hi].
  destruct (ctype_of (eDataType (withRowSegments b0))) as [T|];
    [|intros [= <- _]; reflexivity].
  destruct (for_rangeM _ _ _ d) as [t | e |]; cbn [bind]; try discriminate.
  intros [= <- _]. reflexivity.
Qed.

Lemma postProcessBlock_never_throws (b0 : RasterBand) (blockIndex : Z * Z)
  (d : buffer) (e : exn) :
  postProcessBlock b0 blockIndex d <> Throw e.
Proof.
  unfold postProcessBlock.
  destruct (snd (getValidValuesRange _ _)) as [lo hi].
  destruct (ctype_of (eDataType (withRowSegments b0))) as [T|]; [|discriminate].
  assert (Hloop : forall n a t e0,
            for_loopM n a
              (fun y u =>
                 seg <- computeBlockRowSegment (withRowSegments b0) blockIndex y ;;
                 Ok (postProcessBlockRow T u (y * nBlockXSize (withRowSegments b0))
                       (nBlockXSize (withRowSegments b0)) seg
                       (noDataValue (withRowSegments b0)) lo hi)) t
            <> Throw e0).
  { induction n as [|n IH]; intros a t e0; cbn [for_loopM]; [discriminate |].
    unfold computeBlockRowSegment at 1, vector_at.
    destruct (_ <? 0); cbn [bind]; [discriminate |].
    destruct (_ !! _); cbn [bind]; [apply IH | discriminate]. }
  unfold for_rangeM.
  destruct (for_loopM _ _ _ d) as [t | e' |] eqn:Hl; cbn [bind]; try discriminate.
  exfalso. exact (Hloop _ _ _ _ Hl).
Qed.

Lemma postProcessBlockRow_kept (n : Z) (T : CType) (d t : buffer) (base W : Z)
  (seg : RowSegment) (nd : option spec_float) (lo hi : spec_float) :
  base + W <= n -> seg_start seg <= W -> seg_end seg <= W ->
  kept_from n d t -> kept_from n d (postProcessBlockRow T t base W seg nd lo hi).
Proof.
  intros Hbase Hs He Ht. unfold postProcessBlockRow, row_loops.
  assert (Hfill : forall a c u, c <= W -> kept_from n d u ->
            kept_from n d
              (for_range a c (fill_at (option_map (static_cast T) nd) base) u)).
  { intros a c u Hc Hu. apply kept_from_for_range; [|exact Hu].
    intros x v Hx Hv. unfold fill_at. destruct (option_map _ nd); [|exact Hv].
    apply kept_from_store; [lia | exact Hv]. }
  assert (Hclamp : forall a c u, c <= W -> kept_from n d u ->
            kept_from n d
              (for_range a c
                 (clamp_at (option_map (static_cast T) nd) (static_cast T lo)
                    (static_cast T hi) base) u)).
  { intros a c u Hc Hu. apply kept_from_for_range; [|exact Hu].
    intros x v Hx Hv. unfold clamp_at. destruct (load v (base + x)); [|exact Hv].
    destruct (match option_map (static_cast T) nd with
              | Some nd0 => px_eqb p nd0 | None => false end); [exact Hv |].
    destruct (px_ltb p (static_cast T lo));
      [apply kept_from_store; [lia | exact Hv] |].
    destruct (px_ltb (static_cast T hi) p);
      [apply kept_from_store; [lia | exact Hv] | exact Hv]. }
  destruct (has_value nd).
  - apply Hfill; [lia |]. apply Hclamp; [exact He |]. apply Hfill; [exact Hs |].
    exact Ht.
  - apply Hclamp; [exact He | exact Ht].
Qed.

Lemma postProcessBlock_kept (b0 b' : RasterBand) (blockIndex : Z * Z)
  (d d' : buffer) :
  0 < nBlockXSize b0 ->
  postProcessBlock b0 blockIndex d = Ok (b', d') ->
  kept_from (getNumPixelsPerBlock b0) d d'.
Proof.
  intros HW. unfold postProcessBlock.
  destruct (withRowSegments_fields b0) as (_ & _ & _ & HbW & HbH & _).
  cbv zeta in HbW, HbH. rewrite HbW, HbH.
  destruct (snd (getValidValuesRange _ _)) as [lo hi].
  destruct (ctype_of (eDataType (withRowSegments b0))) as [T|];
    [|intros [= _ <-]; apply kept_from_refl].
  destruct (for_rangeM _ _ _ d) as [t | e |] eqn:Hloop; cbn [bind];
    try discriminate.
  intros [= _ <-]. unfold for_rangeM in Hloop.
  apply (for_loopM_preserves_in (kept_from (getNumPixelsPerBlock b0) d) _ _ _ _ _)
    in Hloop; [exact Hloop | | apply kept_from_refl].
  intros y u u' Hy Hu Hb.
  unfold computeBlockRowSegment in Hb.
  destruct (vector_at _ _) as [rs | |]; cbn [bind] in Hb; try discriminate.
  injection Hb as <-.
  pose proof (clipToBlock_bounds (withRowSegments b0) blockIndex rs
                ltac:(rewrite HbW; exact HW)) as [Hs He].
  rewrite HbW in Hs, He.
  apply postProcessBlockRow_kept; [unfold getNumPixelsPerBlock; nia | lia | lia |].
  exact Hu.
Qed.

(** X12: a read never writes beyond the block: whatever the tile, the
    encoding and the outcome, every pixel of the image at an offset of at
    least [nBlockXSize * nBlockYSize] is the one that was passed in,
    provided the getters of the tile deliver no more pixels than they are
    asked for. *)
Theorem IReadBlock_never_writes_beyond_the_block (b b' : RasterBand)
  (nXBlockOff nYBlockOff : Z) (pImage data : buffer) (err : CPLErr) :
  0 < nBlockXSize b -> 0 <= nBlockYSize b ->
  (forall (tile : Tile) (T : CType) (n : Z),
     CreateTileIterator (apiWrapper b) (sectionNum b) nXBlockOff nYBlockOff
     = Some tile ->
     0 <= n -> Z.of_nat (length (GetData tile T n)) <= n) ->
  IReadBlock b nXBlockOff nYBlockOff pImage = Ok (err, b', data) ->
  forall j : nat,
    getNumPixelsPerBlock b <= Z.of_nat j -> data !! j = pImage !! j.
Proof.
  intros HW HH Hget Hread.
  change (kept_from (getNumPixelsPerBlock b) pImage data).
  revert Hread. unfold IReadBlock.
  destruct (readBlock b _ _ pImage) as [[present d] | e |] eqn:Hread; cbn [bind];
    [| intros [= _ _ <-]; apply kept_from_refl | discriminate].
  assert (Hd : kept_from (getNumPixelsPerBlock b) pImage d).
  { revert Hread. unfold readBlock, fillNoDataBlock, readTile. cbn [fst snd].
    destruct (CreateTileIterator _ _ _ _) as [tile|] eqn:Hit.
    - destruct (_ =? _).
      + destruct (ctype_of (eDataType b)) as [T|]; cbn [bind]; [|discriminate].
        intros [= _ <-]. apply write_pixels_kept. apply (Hget tile T _ eq_refl). unfold getNumPixelsPerBlock. nia.
      + destruct (fillPartialBlock b tile pImage) as [t | e |] eqn:Hp; cbn [bind];
          try discriminate.
        intros [= _ <-]. apply fillPartialBlock_kept in Hp; [exact Hp | lia].
    - destruct (noDataValue b); cbn [bind]; [|discriminate].
      destruct (ctype_of (eDataType b)); cbn [bind]; intros [= _ <-];
        [apply fillWithNoDataValue_kept | apply kept_from_refl]. }
  cbn [fst snd]. destruct present.
  - destruct (postProcessBlock b _ d) as [[b1 d1] | e |] eqn:Hpost;
      [| intros [= _ _ <-]; apply kept_from_refl | discriminate].
    intros [= _ _ <-]. apply postProcessBlock_kept in Hpost; [|exact HW].
    intros j Hj. rewrite (Hpost j Hj). apply Hd, Hj.
  - intros [= _ _ <-]. exact Hd.
Qed.

(** X13: a read changes the band in one way only: a successful read that
    finds the cache empty leaves the band with the computed cache; a band
    whose cache is there is returned as it is; a failed read changes neither
    the band nor the image. *)
Theorem IReadBlock_builds_the_cache_at_most_once (b b' : RasterBand)
  (nXBlockOff nYBlockOff : Z) (pImage data : buffer) (err : CPLErr) :
  IReadBlock b nXBlockOff nYBlockOff pImage = Ok (err, b', data) ->
  (b' = b
   \/ (rowSegmentsInsidePredictionRadius b = []
       /\ err = CE_None
       /\ b' = computeRowSegmentsInsidePredictionRadius b))
  /\ (rowSegmentsInsidePredictionRadius b <> [] -> b' = b)
  /\ (err = CE_Failure -> b' = b /\ data = pImage).
Proof.
  unfold IReadBlock.
  destruct (readBlock b _ _ pImage) as [[present d] | e |] eqn:Hread; cbn [bind];
    [| intros [= <- <- <-]; repeat split; auto | discriminate].
  cbn [fst snd]. destruct present.
  - destruct (postProcessBlock b _ d) as [[b1 d1] | e |] eqn:Hpost;
      [| exfalso; exact (postProcessBlock_never_throws _ _ _ _ Hpost)
       | discriminate].
    intros [= <- <- <-]. apply postProcessBlock_band in Hpost as ->.
    unfold withRowSegments.
    destruct (rowSegmentsInsidePredictionRadius b) eqn:Hc.
    + split; [right; repeat split; reflexivity |].
      split; [congruence | discriminate].
    + split; [left; reflexivity |]. split; [reflexivity | discriminate].
  - intros [= <- <- <-]. split; [left; reflexivity |].
    split; [reflexivity | discriminate].
Qed.
End Frame.

(** The read of the block (0, 0) of the scenario into an image of five
    pixels leaves the fifth. *)
Lemma IReadBlock_never_writes_beyond_witness :
  @IReadBlock x86_64 Scenario.band9 0 0 Cases.image5
  = Ok (CE_None, @computeRowSegmentsInsidePredictionRadius x86_64 Scenario.band9,
        [PxInt 200; PxInt 0; PxInt 200; PxInt 5; PxInt 42])
  /\ [PxInt 200; PxInt 0; PxInt 200; PxInt 5; PxInt 42] !! 4%nat
     = Cases.image5 !! 4%nat.
Proof.
  split; [vm_compute; reflexivity |].
  apply (@IReadBlock_never_writes_beyond_the_block x86_64 Scenario.band9
           (@computeRowSegmentsInsidePredictionRadius x86_64 Scenario.band9)
           0 0 Cases.image5 [PxInt 200; PxInt 0; PxInt 200; PxInt 5; PxInt 42]
           CE_None).
  - reflexivity.
  - vm_compute. discriminate.
  - intros tile T n [= <-] Hn. cbn [GetData Scenario.tile9 Scenario.tile_of].
    rewrite length_take. lia.
  - vm_compute. reflexivity.
  - vm_compute. discriminate.
Defined.

(** The band of the scenario after its first read holds the cache. *)
Lemma IReadBlock_builds_the_cache_witness :
  @computeRowSegmentsInsidePredictionRadius x86_64 Scenario.band9 = Scenario.band9
  \/ (rowSegmentsInsidePredictionRadius Scenario.band9 = []
      /\ CE_None = CE_None
      /\ @computeRowSegmentsInsidePredictionRadius x86_64 Scenario.band9
         = @computeRowSegmentsInsidePredictionRadius x86_64 Scenario.band9).
Proof.
  apply (proj1 (@IReadBlock_builds_the_cache_at_most_once x86_64 Scenario.band9
                  (@computeRowSegmentsInsidePredictionRadius x86_64 Scenario.band9)
                  0 0 Scenario.blank4 [PxInt 200; PxInt 0; PxInt 200; PxInt 5]
                  CE_None ltac:(vm_compute; reflexivity))).
Defined.

(** ** The cache *)

Section CacheFacts.
Context `{Target}.

(** Every row of the cache is written by the loop, whatever the vector
    held and however long it was. *)
Lemma computeRowSegments_forgets (b : RasterBand) (v : list RowSegment) :
  computeRowSegmentsInsidePredictionRadius (set_rowSegments b v)
  = computeRowSegmentsInsidePredictionRadius b.
Proof.
  unfold computeRowSegmentsInsidePredictionRadius.
  cbn [set_rowSegments apiWrapper sectionNum noDataValue eDataType nRasterXSize
       nRasterYSize nBlockXSize nBlockYSize nBlocksPerRow nBlocksPerColumn
       rowSegmentsInsidePredictionRadius].
  unfold set_rowSegments. f_equal.
  apply list_eq. intros j. unfold for_range.
  rewrite !for_loop_insert_lookup by lia. rewrite !resize_length.
  destruct (decide _) as [Hj|Hj]; [reflexivity |].
  rewrite !lookup_ge_None_2; [reflexivity | rewrite resize_length; lia
                              | rewrite resize_length; lia].
Qed.

Lemma computeRowSegments_twice (b : RasterBand) :
  computeRowSegmentsInsidePredictionRadius
    (computeRowSegmentsInsidePredictionRadius b)
  = computeRowSegmentsInsidePredictionRadius b.
Proof. exact (computeRowSegments_forgets b _). Qed.

Lemma withRowSegments_idempotent (b : RasterBand) :
  withRowSegments (withRowSegments b) = withRowSegments b.
Proof.
  destruct (rowSegmentsInsidePredictionRadius b) eqn:Hc.
  - assert (E : withRowSegments b = computeRowSegmentsInsidePredictionRadius b)
      by (unfold withRowSegments; rewrite Hc; reflexivity).
    rewrite E. unfold withRowSegments.
    destruct (rowSegmentsInsidePredictionRadius
                (computeRowSegmentsInsidePredictionRadius b)); [|reflexivity].
    apply computeRowSegments_twice.
  - assert (E : withRowSegments b = b)
      by (unfold withRowSegments; rewrite Hc; reflexivity).
    rewrite !E. reflexivity.
Qed.

Lemma postProcessBlock_withRowSegments (b : RasterBand) (blockIndex : Z * Z)
  (d : buffer) :
  postProcessBlock (withRowSegments b) blockIndex d = postProcessBlock b blockIndex d.
Proof. unfold postProcessBlock. rewrite withRowSegments_idempotent. reflexivity. Qed.

Lemma readBlock_withRowSegments (b : RasterBand) (it : TileIterator)
  (blockIndex : Z * Z) (d : buffer) :
  readBlock (withRowSegments b) it blockIndex d = readBlock b it blockIndex d.
Proof.
  unfold withRowSegments.
  destruct (rowSegmentsInsidePredictionRadius b); reflexivity.
Qed.

(** X14: the coverage mask depends on the band's geometry only: computing
    it discards whatever the cache held (every row is resized and
    rewritten), computing it twice gives what computing it once gives, it
    commutes with setting the sentinel, and the cache has one segment for
    each raster row. *)
Theorem coverage_mask_ignores_the_previous_cache (b : RasterBand) :
  0 <= nRasterYSize b ->
  (forall v : list RowSegment,
     computeRowSegmentsInsidePredictionRadius (set_rowSegments b v)
     = computeRowSegmentsInsidePredictionRadius b)
  /\ computeRowSegmentsInsidePredictionRadius
       (computeRowSegmentsInsidePredictionRadius b)
     = computeRowSegmentsInsidePredictionRadius b
  /\ (forall value : spec_float,
        computeRowSegmentsInsidePredictionRadius (snd (SetNoDataValue b value))
        = snd (SetNoDataValue (computeRowSegmentsInsidePredictionRadius b) value))
  /\ Z.of_nat (length (rowSegmentsInsidePredictionRadius
                         (computeRowSegmentsInsidePredictionRadius b)))
     = nRasterYSize b.
Proof.
  intros Hrows. split; [apply computeRowSegments_forgets |].
  split; [apply computeRowSegments_twice |].
  split; [reflexivity |].
  unfold computeRowSegmentsInsidePredictionRadius, for_range.
  cbn [rowSegmentsInsidePredictionRadius set_rowSegments].
  rewrite for_loop_insert_length, resize_length. lia.
Qed.

(** X15: reading a block again, with the band the first read left and
    the same image, gives the outcome of the first read and leaves the band
    as it is: a read does not depend on whether the cache was built
    before. *)
Theorem repeated_read_gives_the_same_block (b b1 : RasterBand)
  (nXBlockOff nYBlockOff : Z) (pImage data : buffer) (err : CPLErr) :
  IReadBlock b nXBlockOff nYBlockOff pImage = Ok (err, b1, data) ->
  IReadBlock b1 nXBlockOff nYBlockOff pImage = Ok (err, b1, data).
Proof.
  unfold IReadBlock.
  destruct (readBlock b _ _ pImage) as [[present d] | e |] eqn:Hread; cbn [bind];
    [| intros [= <- <- <-]; rewrite Hread; reflexivity | discriminate].
  cbn [fst snd]. destruct present.
  - destruct (postProcessBlock b _ d) as [[b2 d2] | e |] eqn:Hpost;
      [| intros [= <- <- <-]; rewrite Hread; cbn [bind fst snd]; rewrite Hpost;
         reflexivity
       | discriminate].
    intros [= <- <- <-].
    assert (Hb : b2 = withRowSegments b) by exact (postProcessBlock_band _ _ _ _ _ Hpost).
    subst b2.
    destruct (withRowSegments_fields b) as (_ & Hsec & _ & _ & _ & _ & Hapi).
    cbv zeta in Hsec, Hapi. rewrite Hsec, Hapi.
    rewrite readBlock_withRowSegments, Hread. cbn [bind fst snd].
    rewrite postProcessBlock_withRowSegments, Hpost. reflexivity.
  - intros [= <- <- <-]. rewrite Hread. reflexivity.
Qed.

(** X16: for block sizes, pixel counts and tile regions that are not
    negative, the reads that fail are exactly these: without a tile, those of
    a band without a sentinel; with a tile, those of a band whose encoding
    is none of the seven, and those of a tile with another pixel count than
    the block whose region is wider or higher than the block.  Every other
    read either succeeds or has no defined behaviour. *)
Theorem IReadBlock_fails_exactly_when (b : RasterBand) (nXBlockOff nYBlockOff : Z)
  (pImage : buffer) :
  0 <= nBlockXSize b -> 0 <= nBlockYSize b ->
  (forall tile : Tile,
     CreateTileIterator (apiWrapper b) (sectionNum b) nXBlockOff nYBlockOff
     = Some tile ->
     0 <= GetPixelCount tile
     /\ 0 <= fst (GetTileRegion tile) /\ 0 <= snd (GetTileRegion tile)) ->
  IReadBlock b nXBlockOff nYBlockOff pImage = Ok (CE_Failure, b, pImage)
  <-> match CreateTileIterator (apiWrapper b) (sectionNum b) nXBlockOff nYBlockOff with
      | None => noDataValue b = None
      | Some tile =>
          ctype_of (eDataType b) = None
          \/ (GetPixelCount tile <> getNumPixelsPerBlock b
              /\ (fst (GetTileRegion tile) > nBlockXSize b
                  \/ snd (GetTileRegion tile) > nBlockYSize b))
      end.
Proof.
  intros _ _ _.
  unfold IReadBlock, readBlock, fillNoDataBlock, fillPartialBlock, readTile.
  destruct (CreateTileIterator _ _ _ _) as [tile|].
  - destruct (Z.eqb_spec (GetPixelCount tile) (getNumPixelsPerBlock b)) as [Hn|Hn].
    + destruct (ctype_of (eDataType b)) as [T|] eqn:HT; cbn [bind fst snd].
      * split; [|intros [Hc|[Hc _]]; [discriminate | contradiction]].
        destruct (postProcessBlock b _ _) as [[b2 d2] | e |] eqn:Hpost;
          try discriminate.
        exfalso. exact (postProcessBlock_never_throws _ _ _ _ Hpost).
      * split; [left; reflexivity | reflexivity].
    + destruct (GetTileRegion tile) as [w h]. cbn [fst snd].
      destruct (Z.gtb_spec w (nBlockXSize b)) as [Hw|Hw]; cbn [orb bind].
      { split; [intros _; right; split; [exact Hn | left; lia] | reflexivity]. }
      destruct (Z.gtb_spec h (nBlockYSize b)) as [Hh|Hh]; cbn [orb bind].
      { split; [intros _; right; split; [exact Hn | right; lia] | reflexivity]. }
      destruct (ctype_of (eDataType b)) as [T|] eqn:HT; cbn [bind fst snd].
      * split; [|intros [Hc|[_ [Hc|Hc]]]; [discriminate | lia | lia]].
        destruct (postProcessBlock b _ _) as [[b2 d2] | e |] eqn:Hpost;
          try discriminate.
        exfalso. exact (postProcessBlock_never_throws _ _ _ _ Hpost).
      * split; [left; reflexivity | reflexivity].
  - destruct (noDataValue b) as [v|]; cbn [bind fst snd].
    + split; [|discriminate].
      destruct (ctype_of (eDataType b)); cbn [bind fst snd]; discriminate.
    + split; reflexivity.
Qed.
End CacheFacts.

(** The mask of the band of the scenario, computed twice. *)
Lemma coverage_mask_witness :
  @computeRowSegmentsInsidePredictionRadius x86_64
    (@computeRowSegmentsInsidePredictionRadius x86_64 Scenario.band9)
  = @computeRowSegmentsInsidePredictionRadius x86_64 Scenario.band9.
Proof.
  apply (proj1 (proj2 (@coverage_mask_ignores_the_previous_cache x86_64
                         Scenario.band9 ltac:(vm_compute; discriminate)))).
Defined.

(** The second read of the block (0, 0) of the scenario. *)
Lemma repeated_read_witness :
  @IReadBlock x86_64
    (@computeRowSegmentsInsidePredictionRadius x86_64 Scenario.band9)
    0 0 Scenario.blank4
  = Ok (CE_None, @computeRowSegmentsInsidePredictionRadius x86_64 Scenario.band9,
        [PxInt 200; PxInt 0; PxInt 200; PxInt 5]).
Proof.
  apply (@repeated_read_gives_the_same_block x86_64 Scenario.band9).
  vm_compute. reflexivity.
Defined.

(** A tile of 3 x 1 is wider than the block of 2 x 2. *)
Lemma IReadBlock_fails_witness :
  @IReadBlock x86_64 Scenario.band_3x1 0 0 Scenario.blank4
  = Ok (CE_Failure, Scenario.band_3x1, Scenario.blank4).
Proof.
  apply (proj2 (@IReadBlock_fails_exactly_when x86_64 Scenario.band_3x1 0 0
                  Scenario.blank4
                  ltac:(vm_compute; discriminate) ltac:(vm_compute; discriminate)
                  ltac:(intros tile [= <-]; vm_compute; repeat split; discriminate))).
  right. split; [discriminate | left; reflexivity].
Defined.

(** ** The sentinel *)

Section Sentinel.
Context `{Target}.

Lemma absent_tile_fill (b : RasterBand) (T : CType) (v : spec_float)
  (nXBlockOff nYBlockOff : Z) (pImage : buffer) :
  ctype_of (eDataType b) = Some T ->
  noDataValue b = Some v ->
  CreateTileIterator (apiWrapper b) (sectionNum b) nXBlockOff nYBlockOff = None ->
  Z.of_nat (length pImage) = getNumPixelsPerBlock b ->
  IReadBlock b nXBlockOff nYBlockOff pImage
  = Ok (CE_None, b, replicate (length pImage) (static_cast T v)).
Proof.
  intros HT Hv Hit Hlen.
  unfold IReadBlock, readBlock, fillNoDataBlock. cbn [fst snd].
  rewrite Hit, Hv, HT. cbn [bind fst snd]. rewrite <- Hlen, fillWithNoDataValue_all. reflexivity.
Qed.

(** X17: [SetNoDataValue] replaces the sentinel of the constructor:
    [GetNoDataValue] then reports the value set with success, a block
    without a tile is filled with that value converted to the encoding (also
    on a band whose encoding has no sentinel of its own), and of two calls
    the later one counts. *)
Theorem SetNoDataValue_replaces_the_sentinel (b : RasterBand) (T : CType)
  (value : spec_float) (nXBlockOff nYBlockOff : Z) (pImage : buffer) :
  let b' := snd (SetNoDataValue b value) in
  ctype_of (eDataType b) = Some T ->
  CreateTileIterator (apiWrapper b) (sectionNum b) nXBlockOff nYBlockOff = None ->
  Z.of_nat (length pImage) = getNumPixelsPerBlock b ->
  GetNoDataValue b' = (value, true)
  /\ IReadBlock b' nXBlockOff nYBlockOff pImage
     = Ok (CE_None, b', replicate (length pImage) (static_cast T value))
  /\ (forall later : spec_float,
        snd (SetNoDataValue b' later) = snd (SetNoDataValue b later)).
Proof.
  intros b' HT Hit Hlen. split; [reflexivity |]. split; [|reflexivity].
  apply absent_tile_fill; [exact HT | reflexivity | exact Hit | exact Hlen].
Qed.

(** X18: on a band as the constructor leaves it, reading a block for
    which the provider has no tile fills the image with 200 for 8-bit
    pixels and with -9999 for 16-bit signed and 32-bit floating pixels, and
    fails, leaving the image as it was, for every other encoding;
    [GetNoDataValue] reports these sentinels, and NaN without success for
    the other encodings. *)
Theorem absent_tile_of_a_new_band (sizeInPixels : Z * Z) (api : ApiWrapper)
  (section : Z) (info : SectionInfo) (nXBlockOff nYBlockOff : Z) (pImage : buffer) :
  let b := new_RasterBand sizeInPixels api section info in
  CreateTileIterator api section nXBlockOff nYBlockOff = None ->
  Z.of_nat (length pImage)
  = fst (tileSizeInPixels info) * snd (tileSizeInPixels info) ->
  IReadBlock b nXBlockOff nYBlockOff pImage
  = Ok (match dataType info with
        | GDT_Byte => (CE_None, b, replicate (length pImage) (PxInt 200))
        | GDT_Int16 => (CE_None, b, replicate (length pImage) (PxInt (-9999)))
        | GDT_Float32 =>
            (CE_None, b,
             replicate (length pImage) (PxFlt (Fp.to_float (Fp.of_int (-9999)))))
        | _ => (CE_Failure, b, pImage)
        end)
  /\ GetNoDataValue b
     = match dataType info with
       | GDT_Byte => (Fp.of_int 200, true)
       | GDT_Int16 | GDT_Float32 => (Fp.of_int (-9999), true)
       | _ => (Fp.nan, false)
       end.
Proof.
  intros b Hit Hlen.
  assert (Hfail : getNoDataValue info = None ->
                  IReadBlock b nXBlockOff nYBlockOff pImage
                  = Ok (CE_Failure, b, pImage)).
  { intros Hnd. unfold IReadBlock, readBlock, fillNoDataBlock.
    cbn [b new_RasterBand apiWrapper sectionNum noDataValue fst snd].
    rewrite Hit, Hnd. reflexivity. }
  assert (Hfill : forall T v,
            ctype_of (dataType info) = Some T -> getNoDataValue info = Some v ->
            IReadBlock b nXBlockOff nYBlockOff pImage
            = Ok (CE_None, b, replicate (length pImage) (static_cast T v))).
  { intros T v HT Hv.
    apply absent_tile_fill; [exact HT | exact Hv | exact Hit | exact Hlen]. }
  unfold GetNoDataValue. cbn [b new_RasterBand noDataValue].
  unfold getNoDataValue in *.
  destruct (dataType info); cbn [ctype_of] in Hfill;
    try (split; [apply Hfail; reflexivity | reflexivity]).
  - split; [|reflexivity]. exact (Hfill uint8_t _ eq_refl eq_refl).
  - split; [|reflexivity]. exact (Hfill int16_t _ eq_refl eq_refl).
  - split; [|reflexivity]. exact (Hfill float_t _ eq_refl eq_refl).
Qed.

(** X19: on a band of a floating encoding whose converted bounds are not
    reversed, a pixel inside the block-local segment that equals the
    sentinel is kept; any other pixel ends up neither below the lower nor
    above the upper bound, and is unchanged when it was so before.  A NaN
    pixel stays NaN. *)
Theorem float_pixels_inside_the_segment_stay_in_range (b0 : RasterBand)
  (blockIndex : Z * Z) (T : CType) (lo hi : spec_float) (data : buffer) :
  let b := withRowSegments b0 in
  ctype_of (eDataType b0) = Some T ->
  typedMinValue b0 T = PxFlt lo -> typedMaxValue b0 T = PxFlt hi ->
  SFltb hi lo = false ->
  0 < nBlockXSize b0 -> 0 < nBlockYSize b0 -> 0 <= snd blockIndex ->
  (snd blockIndex + 1) * nBlockYSize b0
  <= Z.of_nat (length (rowSegmentsInsidePredictionRadius b)) ->
  exists data' : buffer,
    postProcessBlock b0 blockIndex data = Ok (b, data')
    /\ forall (j : nat) (v : spec_float),
         0 <= Z.of_nat j < nBlockYSize b0 * nBlockXSize b0 ->
         let seg := clipToBlock b blockIndex
                      (rowSegmentAt b (snd blockIndex * nBlockYSize b0
                                       + Z.of_nat j / nBlockXSize b0)) in
         seg_start seg <= Z.of_nat j mod nBlockXSize b0 < seg_end seg ->
         data !! j = Some (PxFlt v) ->
         exists r : spec_float,
           data' !! j = Some (PxFlt r)
           /\ (match noDataValue b0 with
               | Some d => px_eqb (PxFlt v) (static_cast T d)
               | None => false
               end = true -> r = v)
           /\ (match noDataValue b0 with
               | Some d => px_eqb (PxFlt v) (static_cast T d)
               | None => false
               end = false ->
               SFltb r lo = false /\ SFltb hi r = false
               /\ (SFltb v lo = false -> SFltb hi v = false -> r = v))
           /\ (v = S754_nan -> r = S754_nan).
Proof.
  intros b HT Hlo Hhi Hord HW HH Hy Hin.
  destruct (withRowSegments_fields b0) as (HeT & Hsec & Hnd & HbW & HbH & _).
  fold b in HeT, Hsec, Hnd, HbW, HbH.
  exists (imap (block_pixel b blockIndex T) data).
  split; [apply postProcessBlock_imap; assumption |].
  intros j v Hj seg Hseg Hv. rewrite list_lookup_imap, Hv.
  cbn [fmap option_fmap option_map].
  unfold block_pixel. rewrite HbW, HbH.
  destruct (decide _) as [_|Hn]; [|contradiction].
  fold seg.
  assert (Hlo' : typedMinValue b T = PxFlt lo)
    by (unfold typedMinValue in *; rewrite Hsec; exact Hlo).
  assert (Hhi' : typedMaxValue b T = PxFlt hi)
    by (unfold typedMaxValue in *; rewrite Hsec; exact Hhi).
  rewrite Hlo', Hhi', Hnd.
  set (tnd := option_map (static_cast T) (noDataValue b0)).
  assert (Hrow : row_pixel tnd (PxFlt lo) (PxFlt hi) seg
                   (Z.of_nat j mod nBlockXSize b0) (PxFlt v)
                 = clamp_val tnd (PxFlt lo) (PxFlt hi) (PxFlt v)).
  { unfold row_pixel. destruct tnd.
    - destruct (Z.ltb_spec (Z.of_nat j mod nBlockXSize b0) (seg_start seg)); [lia |].
      destruct (Z.ltb_spec (Z.of_nat j mod nBlockXSize b0) (seg_end seg)); [|lia].
      reflexivity.
    - destruct (Z.leb_spec (seg_start seg) (Z.of_nat j mod nBlockXSize b0)); [|lia].
      destruct (Z.ltb_spec (Z.of_nat j mod nBlockXSize b0) (seg_end seg)); [|lia].
      reflexivity. }
  rewrite Hrow.
  assert (Hskip : match tnd with Some nd => px_eqb (PxFlt v) nd | None => false end
                  = match noDataValue b0 with
                    | Some d => px_eqb (PxFlt v) (static_cast T d)
                    | None => false
                    end)
    by (unfold tnd; destruct (noDataValue b0); reflexivity).
  unfold clamp_val. rewrite Hskip. cbn [px_ltb].
  destruct (match noDataValue b0 with
            | Some d => px_eqb (PxFlt v) (static_cast T d)
            | None => false
            end) eqn:Hs.
  - exists v. split; [reflexivity |]. split; [reflexivity |].
    split; [discriminate |]. intros ->. reflexivity.
  - destruct (SFltb v lo) eqn:Hvl.
    + exists lo. split; [reflexivity |]. split; [discriminate |].
      split; [|intros ->; destruct lo; discriminate].
      intros _. split; [apply SFltb_irrefl |]. split; [exact Hord | discriminate].
    + destruct (SFltb hi v) eqn:Hvh.
      * exists hi. split; [reflexivity |]. split; [discriminate |].
        split; [|intros ->; unfold SFltb in Hvh; destruct hi; discriminate].
        intros _. split; [exact Hord |]. split; [apply SFltb_irrefl | discriminate].
      * exists v. split; [reflexivity |]. split; [discriminate |].
        split; [|intros ->; reflexivity].
        intros _. split; [exact Hvl |]. split; [exact Hvh | reflexivity].
Qed.
End Sentinel.

(** A band of 16-bit unsigned pixels has no sentinel of its own; the caller
    sets 7. *)
Lemma SetNoDataValue_replaces_the_sentinel_witness :
  GetNoDataValue (snd (SetNoDataValue Scenario.band_unmasked (Fp.of_int 7)))
  = (Fp.of_int 7, true)
  /\ @IReadBlock x86_64 (snd (SetNoDataValue Scenario.band_unmasked (Fp.of_int 7)))
       0 0 [PxInt 0; PxInt 0]
     = Ok (CE_None, snd (SetNoDataValue Scenario.band_unmasked (Fp.of_int 7)),
           [PxInt 7; PxInt 7]).
Proof.
  destruct (@SetNoDataValue_replaces_the_sentinel x86_64 Scenario.band_unmasked
              uint16_t (Fp.of_int 7) 0 0 [PxInt 0; PxInt 0]
              eq_refl eq_refl eq_refl)
    as (Hget & Hread & _).
  split; [exact Hget | exact Hread].
Defined.

(** The band of the scenario over a provider without tiles. *)
Lemma absent_tile_of_a_new_band_witness :
  @IReadBlock x86_64 Scenario.band_sparse 1 1 Scenario.blank4
  = Ok (CE_None, Scenario.band_sparse,
        [PxInt (-9999); PxInt (-9999); PxInt (-9999); PxInt (-9999)]).
Proof.
  apply (proj1 (@absent_tile_of_a_new_band x86_64 (4, 4)
                  (Scenario.api_of 4 4 100 300 100 Scenario.no_tiles) 0
                  {| dataType := GDT_Int16; tileSizeInPixels := (2, 2) |}
                  1 1 Scenario.blank4 eq_refl eq_refl)).
Defined.

(** The NaN of a block of 32-bit floating pixels of section 0 stays. *)
Lemma float_pixels_inside_the_segment_witness :
  exists data' : buffer,
    @postProcessBlock x86_64 Cases.band_f32 (0, 0) Cases.floats4
    = Ok (@withRowSegments x86_64 Cases.band_f32, data')
    /\ data' !! 2%nat = Some (PxFlt S754_nan).
Proof.
  destruct (@float_pixels_inside_the_segment_stay_in_range x86_64 Cases.band_f32
              (0, 0) float_t (Fp.to_float (Fp.of_int 0))
              (Fp.to_float (Fp.of_int 200)) Cases.floats4
              eq_refl eq_refl eq_refl eq_refl eq_refl eq_refl
              ltac:(vm_compute; discriminate) ltac:(vm_compute; discriminate))
    as (data' & Hpost & Hin).
  exists data'. split; [exact Hpost |].
  destruct (Hin 2%nat S754_nan) as (r & Hr & _ & _ & Hnan).
  - vm_compute. split; [discriminate | reflexivity].
  - vm_compute. split; [discriminate | reflexivity].
  - reflexivity.
  - rewrite (Hnan eq_refl) in Hr. exact Hr.
Defined.
